(** * Viral Arcade (src/arcade/src/ViralArcade.jsx): a shallow embedding

    The component keeps its game state in React state cells
    ([useState]) and in mutable refs ([useRef]).  A handler defined during a
    render reads the state cells of THAT render (its closure) and queues
    updates; updater functions [setX (fun old => ...)] are applied to the
    pending value.  Every handler below therefore takes the render snapshot
    [snap] it closes over and transforms the pending state.

    JavaScript numbers are modelled by exact arithmetic: [Z] for the cells
    that only ever hold integers (score, best, combo, streak, seed, ids) and
    [Q] for the others (multiplier, timers, coordinates, times).  Rounding
    error of IEEE doubles, NaN and the infinities are outside the model.
    Audio cues ([beep]) do not touch the game state and are left out. *)

From Stdlib Require Import ZArith QArith Qround Qminmax List String Bool Lia Lqa.
From Stdlib Require Import DecimalString.
Import ListNotations.
Open Scope Z_scope.

(** ** Numeric helpers *)

(** [clamp = (v, a, b) => Math.max(a, Math.min(b, v))] *)
Definition clamp (v a b : Q) : Q := Qmax a (Qmin b v).

(** [rand = (a, b) => a + Math.random() * (b - a)]; the draw of
    [Math.random()] is the explicit argument [r].  The value is exact here;
    in doubles a draw just below 1 can round up to [b], so only the closed
    bounds [a <= rand a b r <= b] carry over to the program. *)
Definition rand (a b r : Q) : Q := (a + r * (b - a))%Q.

(** [Math.round]: the nearest integer, ties towards +infinity. *)
Definition Math_round (q : Q) : Z := Qfloor (q + (1 # 2)).

(** [Number(m.toFixed(1))]: rounding to one decimal place. *)
Definition toFixed1 (q : Q) : Q := (inject_Z (Math_round (q * 10)) / 10)%Q.

(** [a < b] and [a > b] on numbers. *)
Definition Qltb (a b : Q) : bool := negb (Qle_bool b a).

(** [v || 1] on a number: 1 when [v] is 0. *)
Definition or1 (v : Q) : Q := if Qeq_bool v 0 then 1%Q else v.

(** The template literal [`${n}`] of an integer. *)
Definition string_of_Z (n : Z) : string := NilZero.string_of_int (Z.to_int n).

(** ** Data model *)

(** [{ x, y }] *)
Module V.
Record t := mk { x : Q; y : Q }.
End V.

Inductive Kind := good | bad | power.

Definition Kind_eqb (a b : Kind) : bool :=
  match a, b with
  | good, good | bad, bad | power, power => true
  | _, _ => false
  end.

Module Orb.
Record t := mk {
  id : Z;
  kind : Kind;
  pos : V.t;
  vel : V.t;
  radius : Q;
  bornAt : Q;
  ttl : Q;
  spin : Q
}.
End Orb.

(** The [useState] cells of [ViralArcade]. *)
Record State := mkState {
  running : bool;
  paused : bool;
  score : Z;
  best : Z;
  combo : Z;
  mult : Q;
  streak : Z;
  slowmo : Q;
  magnet : Q;
  x2 : Q;
  flash : option string;
  badges : list string;
  player : V.t;
  radius : Q;
  seed : Z
}.

(** State setters; each takes an updater, [setX(v)] is [setX (fun _ => v)]. *)
Definition setRunning (f : bool -> bool) (s : State) : State :=
  mkState (f (running s)) (paused s) (score s) (best s) (combo s) (mult s)
    (streak s) (slowmo s) (magnet s) (x2 s) (flash s) (badges s) (player s)
    (radius s) (seed s).
Definition setPaused (f : bool -> bool) (s : State) : State :=
  mkState (running s) (f (paused s)) (score s) (best s) (combo s) (mult s)
    (streak s) (slowmo s) (magnet s) (x2 s) (flash s) (badges s) (player s)
    (radius s) (seed s).
Definition setScore (f : Z -> Z) (s : State) : State :=
  mkState (running s) (paused s) (f (score s)) (best s) (combo s) (mult s)
    (streak s) (slowmo s) (magnet s) (x2 s) (flash s) (badges s) (player s)
    (radius s) (seed s).
Definition setBest (f : Z -> Z) (s : State) : State :=
  mkState (running s) (paused s) (score s) (f (best s)) (combo s) (mult s)
    (streak s) (slowmo s) (magnet s) (x2 s) (flash s) (badges s) (player s)
    (radius s) (seed s).
Definition setCombo (f : Z -> Z) (s : State) : State :=
  mkState (running s) (paused s) (score s) (best s) (f (combo s)) (mult s)
    (streak s) (slowmo s) (magnet s) (x2 s) (flash s) (badges s) (player s)
    (radius s) (seed s).
Definition setMult (f : Q -> Q) (s : State) : State :=
  mkState (running s) (paused s) (score s) (best s) (combo s) (f (mult s))
    (streak s) (slowmo s) (magnet s) (x2 s) (flash s) (badges s) (player s)
    (radius s) (seed s).
Definition setStreak (f : Z -> Z) (s : State) : State :=
  mkState (running s) (paused s) (score s) (best s) (combo s) (mult s)
    (f (streak s)) (slowmo s) (magnet s) (x2 s) (flash s) (badges s) (player s)
    (radius s) (seed s).
Definition setSlowmo (f : Q -> Q) (s : State) : State :=
  mkState (running s) (paused s) (score s) (best s) (combo s) (mult s)
    (streak s) (f (slowmo s)) (magnet s) (x2 s) (flash s) (badges s) (player s)
    (radius s) (seed s).
Definition setMagnet (f : Q -> Q) (s : State) : State :=
  mkState (running s) (paused s) (score s) (best s) (combo s) (mult s)
    (streak s) (slowmo s) (f (magnet s)) (x2 s) (flash s) (badges s) (player s)
    (radius s) (seed s).
Definition setX2 (f : Q -> Q) (s : State) : State :=
  mkState (running s) (paused s) (score s) (best s) (combo s) (mult s)
    (streak s) (slowmo s) (magnet s) (f (x2 s)) (flash s) (badges s) (player s)
    (radius s) (seed s).
Definition setFlash (f : option string -> option string) (s : State) : State :=
  mkState (running s) (paused s) (score s) (best s) (combo s) (mult s)
    (streak s) (slowmo s) (magnet s) (x2 s) (f (flash s)) (badges s) (player s)
    (radius s) (seed s).
Definition setBadges (f : list string -> list string) (s : State) : State :=
  mkState (running s) (paused s) (score s) (best s) (combo s) (mult s)
    (streak s) (slowmo s) (magnet s) (x2 s) (flash s) (f (badges s)) (player s)
    (radius s) (seed s).
Definition setPlayer (f : V.t -> V.t) (s : State) : State :=
  mkState (running s) (paused s) (score s) (best s) (combo s) (mult s)
    (streak s) (slowmo s) (magnet s) (x2 s) (flash s) (badges s) (f (player s))
    (radius s) (seed s).
Definition setSeed (f : Z -> Z) (s : State) : State :=
  mkState (running s) (paused s) (score s) (best s) (combo s) (mult s)
    (streak s) (slowmo s) (magnet s) (x2 s) (flash s) (badges s) (player s)
    (radius s) (f (seed s)).

(** Sequencing of queued updates, in program order. *)
Definition Upd := State -> State.
Definition skip : Upd := fun s => s.
Definition seq (a b : Upd) : Upd := fun s => b (a s).
Definition when (c : bool) (a : Upd) : Upd := if c then a else skip.
Declare Scope upd_scope.
Delimit Scope upd_scope with upd.
Notation "a ;; b" := (seq a b) (at level 61, right associativity) : upd_scope.

(** ** Toast

    [toast(msg, run)]: [setFlash(msg); run?.(); setTimeout(() =>
    setFlash(null), 1200)].  The timeout is the later event [flashTimeout]. *)
Definition toast (msg : string) (run : Upd) : Upd :=
  (setFlash (fun _ => Some msg) ;; run)%upd.

Definition flashTimeout : Upd := setFlash (fun _ => None).

(** ** Collecting an orb: [handleCollect] *)

Definition milestones : list Z := [200; 600; 1200; 2500; 4000; 6000].

(** The badge label of a milestone: a medal sign, a blank and the number. *)
Definition badge (m : Z) : string := ("🏅 " ++ string_of_Z m)%string.

(** [badges.includes(b)] *)
Definition includes (b : string) (l : list string) : bool :=
  existsb (String.eqb b) l.

(** The body of [for (const m of milestones) { if (...) setBadges(...) }]. *)
Definition awardBadge (snap : State) (m : Z) : Upd :=
  when ((score snap <? m) && (m <=? score snap + 1)
        && negb (includes (badge m) (badges snap)))
       (setBadges (fun b => b ++ [badge m])).

Definition awardBadges (snap : State) : Upd :=
  fun s => fold_left (fun acc m => awardBadge snap m acc) milestones s.

(** The points of one good orb. *)
Definition inc (snap : State) : Z :=
  Math_round (10 * mult snap * (if Qltb 0 (x2 snap) then 2 else 1))%Q.

(** [handleCollect(o)]; [choice] is the [Math.random()] draw of the power
    branch. *)
Definition handleCollect (snap : State) (o : Orb.t) (choice : Q) : Upd :=
  ((match Orb.kind o with
    | good =>
        setScore (fun s => s + inc snap) ;;
        setCombo (fun c => c + 1) ;;
        setStreak (fun s => Z.min 100 (s + 5)) ;;
        when (combo snap + 1 =? 10)
             (toast "x2 Active!" (setX2 (fun _ => 4000%Q))) ;;
        when (Z.rem (combo snap + 1) 15 =? 0)
             (toast "SLOW-MO!" (setSlowmo (fun _ => 3000%Q))) ;;
        when (Z.rem (combo snap + 1) 20 =? 0)
             (toast "MAGNET!" (setMagnet (fun _ => 4000%Q)))
    | power =>
        if Qltb choice 0.34 then
          toast "Slow Motion" (setSlowmo (fun _ => 3500%Q))
        else if Qltb choice 0.67 then
          toast "Magnet Field" (setMagnet (fun _ => 5000%Q))
        else
          toast "Score x2" (setX2 (fun _ => 6000%Q))
    | bad => skip
    end) ;;
   awardBadges snap)%upd.

(** ** Difficulty curve: [useMemo(() => ..., [score])] *)

Record Difficulty := mkDifficulty {
  spawnRate : Q;
  speed : Q;
  badShare : Q;
  powerChance : Q
}.

Definition difficulty (score : Z) : Difficulty :=
  let t := Qmin 1 (inject_Z score / 5000) in
  mkDifficulty (0.9 + t * 2.2) (70 + t * 170) (0.35 + t * 0.25)
               (0.08 + t * 0.05).

(** ** Refs and host values *)

(** [arena.getBoundingClientRect()] *)
Record Rect := mkRect { left : Q; top : Q; width : Q; height : Q }.

(** [orbsRef], [idRef], [lastTs], and the [dragging] variable of the input
    effect. *)
Record Refs := mkRefs {
  orbsRef : list Orb.t;
  idRef : Z;
  lastTs : option Q;
  dragging : bool
}.

(** The [Math.random()] draws of one call of [spawnOrb], in call order. *)
Record SpawnDraws := mkSpawnDraws {
  d_edge : Q;
  d_x : Q;
  d_y : Q;
  d_jitter_x : Q;
  d_jitter_y : Q;
  d_vel_x : Q;
  d_vel_y : Q;
  d_power : Q;
  d_bad : Q;
  d_radius : Q;
  d_ttl : Q;
  d_spin : Q
}.

(** What the host hands to one animation frame. *)
Record Frame := mkFrame {
  ts : Q;                 (* the timestamp passed to [tick] *)
  arena : option Rect;    (* [arenaRef.current], measured *)
  spawnDraw : Q;          (* [Math.random() < chance] *)
  draws : SpawnDraws;     (* the draws of [spawnOrb], if it is called *)
  spawnClock : Q;         (* [performance.now()] inside [spawnOrb] *)
  clock : nat -> Q;       (* [performance.now()] at the TTL test of orb i *)
  choice : nat -> Q       (* [Math.random()] of [handleCollect] at orb i *)
}.

Definition pxPos (rect : Rect) (v : V.t) : V.t :=
  V.mk (V.x v * width rect) (V.y v * height rect).

Definition dist2 (a b : V.t) : Q :=
  let dx := (V.x a - V.x b)%Q in
  let dy := (V.y a - V.y b)%Q in
  (dx * dx + dy * dy)%Q.

(** The kind of a spawned orb, from the two draws
    [isPower = Math.random() < powerChance] and
    [isBad = Math.random() < badShare && !isPower]. *)
Definition spawnKind (d : Difficulty) (r_power r_bad : Q) : Kind :=
  let isPower := Qltb r_power (powerChance d) in
  let isBad := Qltb r_bad (badShare d) && negb isPower in
  if isPower then power else if isBad then bad else good.

(** The classification as the specification words it, from one draw:
    power below [powerChance], else bad below [badShare], else good. *)
Definition singleDrawKind (d : Difficulty) (r : Q) : Kind :=
  if Qltb r (powerChance d) then power
  else if Qltb r (badShare d) then bad
  else good.

(** ** Game state transitions that need no host function *)

Definition startGame (w : State * Refs) : State * Refs :=
  ((setScore (fun _ => 0) ;;
    setCombo (fun _ => 0) ;;
    setMult (fun _ => 1%Q) ;;
    setStreak (fun _ => 0) ;;
    setSlowmo (fun _ => 0%Q) ;;
    setMagnet (fun _ => 0%Q) ;;
    setX2 (fun _ => 0%Q) ;;
    setBadges (fun _ => []) ;;
    setRunning (fun _ => true) ;;
    setPaused (fun _ => false) ;;
    setSeed (fun s => s + 1))%upd (fst w),
   mkRefs [] 1 None (dragging (snd w))).

Definition endGame (snap : State) : Upd :=
  (setRunning (fun _ => false) ;;
   setPaused (fun _ => false) ;;
   setStreak (fun _ => 0) ;;
   setCombo (fun _ => 0) ;;
   setMult (fun _ => 1%Q) ;;
   setSeed (fun s => s + 1) ;;
   setBest (fun b => if score snap >? b then score snap else b))%upd.

(** The 80 ms interval: streak and multiplier decay. *)
Definition decay : Upd :=
  (setStreak (fun s => Z.max 0 (s - 2)) ;;
   setMult (fun m => clamp (m * 0.995) 1 5))%upd.

(** The effect on [streak]: the streak-derived multiplier. *)
Definition streakEffect (snap : State) : Upd :=
  let m := (1 + inject_Z (Qfloor (inject_Z (streak snap) / 25)) * 0.2)%Q in
  setMult (fun _ => clamp (toFixed1 m) 1 4).

(** ** Sharing: [shareScore] *)

(** [navigator.share] and [navigator.clipboard.writeText]: [None] when the
    capability is absent, [Some ok] when present, the promise being
    fulfilled when [ok] and rejected otherwise. *)
Record Navigator := mkNavigator {
  share : option bool;
  clipboard : option bool
}.

Inductive Effect :=
| NativeShare (title text : string)
| ClipboardWrite (text : string).

Definition shareText (snap : State) : string :=
  ("I scored " ++ string_of_Z (score snap)
     ++ " in Viral Arcade! Can you beat me?")%string.

Definition shareScore (nav : Navigator) (snap : State) : Upd * list Effect :=
  let text := shareText snap in
  match share nav with
  | Some _ => (skip, [NativeShare "Viral Arcade" text])
  | None =>
      match clipboard nav with
      | Some true => (toast "Copied! Share anywhere" skip, [ClipboardWrite text])
      | Some false => (skip, [ClipboardWrite text])
      | None => (skip, [])
      end
  end.

(** ** The best-score store: [useLocalStorage] *)

(** The entry under the key: missing, not parseable, or the JSON of a number. *)
Inductive Raw := absent | corrupt | json (v : Z).

(** The initial value: [raw ? JSON.parse(raw) : initial], [initial] on any
    exception. *)
Definition useLocalStorage_init (raw : Raw) (initial : Z) : Z :=
  match raw with
  | json v => v
  | absent | corrupt => initial
  end.

(** The effect on [[key, val]]: [localStorage.setItem(key,
    JSON.stringify(val))], a failed write being ignored. *)
Definition useLocalStorage_sync (writable : bool) (val : Z) (raw : Raw) : Raw :=
  if writable then json val else raw.

(** ** Input *)

Definition toNorm (rect : Rect) (eX eY : Q) : V.t :=
  V.mk (clamp ((eX - left rect) / width rect) 0 1)
       (clamp ((eY - top rect) / height rect) 0 1).

Definition setDragging (b : bool) (r : Refs) : Refs :=
  mkRefs (orbsRef r) (idRef r) (lastTs r) b.

Definition onDown (rect : Rect) (eX eY : Q) (w : State * Refs) : State * Refs :=
  (setPlayer (fun _ => toNorm rect eX eY) (fst w), setDragging true (snd w)).

Definition onMove (rect : Rect) (eX eY : Q) (w : State * Refs) : State * Refs :=
  if dragging (snd w)
  then (setPlayer (fun _ => toNorm rect eX eY) (fst w), snd w)
  else w.

Definition onUp (w : State * Refs) : State * Refs :=
  (fst w, setDragging false (snd w)).

(** ** What is rendered: the three overlays *)

(** [{!running && (<div className="overlay"> welcome-screen ...)}] *)
Definition showWelcome (s : State) : bool := negb (running s).

(** [{running && paused && (... pause-screen ...)}] *)
Definition showPause (s : State) : bool := running s && paused s.

(** [{!running && score > 0 && (... game-over-modal ...)}] *)
Definition showGameOver (s : State) : bool := negb (running s) && (score s >? 0).

(** ** The simulation: spawning, the frame update, the event loop

    [Math.hypot] has no exact rational value; it is a parameter of the
    development. *)

Section Host.

Variable hypot : Q -> Q -> Q.

(** [spawnOrb()]; [now] is the reading of [performance.now()]. *)
Definition spawnOrb (snap : State) (arena : option Rect) (d : SpawnDraws)
    (now : Q) (r : Refs) : Refs :=
  match arena with
  | None => r
  | Some rect =>
      let w := width rect in
      let h := height rect in
      let edge := Qfloor (rand 0 4 (d_edge d)) in
      let x := rand 0 1 (d_x d) in
      let y := rand 0 1 (d_y d) in
      let y := if edge =? 0 then 0%Q else y in
      let y := if edge =? 1 then 1%Q else y in
      let x := if edge =? 2 then 0%Q else x in
      let x := if edge =? 3 then 1%Q else x in
      let toCenter := V.mk (0.5 - x) (0.5 - y) in
      let len := or1 (hypot (V.x toCenter) (V.y toCenter)) in
      let jitter := V.mk (rand (-0.3) 0.3 (d_jitter_x d))
                         (rand (-0.3) 0.3 (d_jitter_y d)) in
      let speed := (speed (difficulty (score snap)) / Qmax w h)%Q in
      let vel :=
        V.mk ((V.x toCenter / len + V.x jitter) * speed
                * rand 0.6 1.3 (d_vel_x d))
             ((V.y toCenter / len + V.y jitter) * speed
                * rand 0.6 1.3 (d_vel_y d)) in
      let kind := spawnKind (difficulty (score snap)) (d_power d) (d_bad d) in
      let orb :=
        Orb.mk (idRef r) kind (V.mk x y) vel
          (match kind with
           | bad => rand 12 18 (d_radius d)
           | power => rand 14 20 (d_radius d)
           | good => rand 10 16 (d_radius d)
           end)
          now
          (rand 5000 10000 (d_ttl d))
          (rand 0 (2 * 3.141592653589793) (d_spin d)) in
      mkRefs (orbsRef r ++ [orb]) (idRef r + 1) (lastTs r) (dragging r)
  end.

(** One pass of the body of [for (const o of orbsRef.current)], up to the
    TTL test: motion, magnet pull, bounce and spin of [o]. *)
Definition moveOrb (snap : State) (rect : Rect) (effectiveDt : Q)
    (o : Orb.t) : Orb.t :=
  let playerPx := pxPos rect (player snap) in
  let velScale :=
    (speed (difficulty (score snap)) / Qmax (width rect) (height rect))%Q in
  let vx := (V.x (Orb.vel o) * velScale * effectiveDt)%Q in
  let vy := (V.y (Orb.vel o) * velScale * effectiveDt)%Q in
  let pull := Qltb 0 (magnet snap) && negb (Kind_eqb (Orb.kind o) bad) in
  let oPx := pxPos rect (Orb.pos o) in
  let dx := (V.x playerPx - V.x oPx)%Q in
  let dy := (V.y playerPx - V.y oPx)%Q in
  let m := or1 (hypot dx dy) in
  let vx := if pull then (vx + dx / m * 0.8 * effectiveDt)%Q else vx in
  let vy := if pull then (vy + dy / m * 0.8 * effectiveDt)%Q else vy in
  let nx := clamp (V.x (Orb.pos o) + vx) 0 1 in
  let ny := clamp (V.y (Orb.pos o) + vy) 0 1 in
  let hx := Qeq_bool nx 0 || Qeq_bool nx 1 in
  let hy := Qeq_bool ny 0 || Qeq_bool ny 1 in
  let bounced := hx || hy in
  let vel :=
    if bounced
    then V.mk (V.x (Orb.vel o) * (if hx then -1 else 1))
              (V.y (Orb.vel o) * (if hy then -1 else 1))
    else Orb.vel o in
  Orb.mk (Orb.id o) (Orb.kind o) (V.mk nx ny) vel (Orb.radius o)
         (Orb.bornAt o) (Orb.ttl o)
         (Orb.spin o + (if Kind_eqb (Orb.kind o) bad then 0.03 else 0.02)).

(** [if (performance.now() - o.bornAt < o.ttl) newOrbs.push(o)] *)
Definition alive (now : Q) (o : Orb.t) : bool :=
  Qltb (now - Orb.bornAt o) (Orb.ttl o).

(** The whole loop that builds [newOrbs]; [i] counts the orbs visited. *)
Fixpoint moveOrbs (snap : State) (rect : Rect) (effectiveDt : Q)
    (clock : nat -> Q) (i : nat) (os : list Orb.t) : list Orb.t :=
  match os with
  | [] => []
  | o :: rest =>
      let o' := moveOrb snap rect effectiveDt o in
      let tl := moveOrbs snap rect effectiveDt clock (S i) rest in
      if alive (clock i) o' then o' :: tl else tl
  end.

(** [d2 <= (radius + r) * (radius + r)] *)
Definition hit (snap : State) (rect : Rect) (o : Orb.t) : bool :=
  let playerPx := pxPos rect (player snap) in
  let oPx := pxPos rect (Orb.pos o) in
  let r := Orb.radius o in
  Qle_bool (dist2 playerPx oPx) ((radius snap + r) * (radius snap + r)).

Definition setOrbs (os : list Orb.t) (r : Refs) : Refs :=
  mkRefs os (idRef r) (lastTs r) (dragging r).

(** The collision loop [for (const o of [...orbsRef.current])] over the copy
    [os]; the third component tells whether the loop ran to its end (so that
    the next frame is requested) or returned from [tick] after [endGame]. *)
Fixpoint collide (snap : State) (rect : Rect) (choice : nat -> Q) (i : nat)
    (os : list Orb.t) (w : State * Refs) : State * Refs * bool :=
  match os with
  | [] => (w, true)
  | o :: rest =>
      if hit snap rect o then
        match Orb.kind o with
        | bad => (endGame snap (fst w), snd w, false)
        | _ =>
            collide snap rect choice (S i) rest
              (handleCollect snap o (choice i) (fst w),
               setOrbs (filter (fun x => negb (Orb.id x =? Orb.id o))
                               (orbsRef (snd w)))
                       (snd w))
        end
      else collide snap rect choice (S i) rest w
  end.

(** The timers block of [tick]. *)
Definition timers (snap : State) (dt : Q) : Upd :=
  (when (Qltb 0 (slowmo snap)) (setSlowmo (fun s => Qmax 0 (s - dt * 1000))) ;;
   when (Qltb 0 (magnet snap)) (setMagnet (fun s => Qmax 0 (s - dt * 1000))) ;;
   when (Qltb 0 (x2 snap)) (setX2 (fun s => Qmax 0 (s - dt * 1000))))%upd.

(** [dt]: seconds since the previous frame, 0 on the first frame. *)
Definition frameDt (f : Frame) (r : Refs) : Q :=
  let last := match lastTs r with None => ts f | Some t => t end in
  ((ts f - last) / 1000)%Q.

Definition setLastTs (t : option Q) (r : Refs) : Refs :=
  mkRefs (orbsRef r) (idRef r) t (dragging r).

(** [if (Math.random() < chance) spawnOrb()] *)
Definition spawnPhase (snap : State) (f : Frame) (dt : Q) (r : Refs) : Refs :=
  let chance := (spawnRate (difficulty (score snap)) * dt)%Q in
  if Qltb (spawnDraw f) chance
  then spawnOrb snap (arena f) (draws f) (spawnClock f) r
  else r.

(** The move loop and [orbsRef.current = newOrbs]. *)
Definition movePhase (snap : State) (f : Frame) (rect : Rect) (dt : Q)
    (r : Refs) : Refs :=
  let slowFactor := if Qltb 0 (slowmo snap) then 0.4%Q else 1%Q in
  let effectiveDt := (dt * slowFactor)%Q in
  setOrbs (moveOrbs snap rect effectiveDt (clock f) 0 (orbsRef r)) r.

(** [tick(ts)].  The boolean tells whether the next frame was requested. *)
Definition tick (snap : State) (f : Frame) (w : State * Refs)
    : State * Refs * bool :=
  match arena f with
  | None => (w, false)
  | Some rect =>
      let dt := frameDt f (snd w) in
      let r := setLastTs (Some (ts f)) (snd w) in
      let st := timers snap dt (fst w) in
      let r := spawnPhase snap f dt r in
      let r := movePhase snap f rect dt r in
      collide snap rect (choice f) 0 (orbsRef r) (st, r)
  end.

(** ** The event loop *)

Record World := mkWorld {
  st : State;
  refs : Refs;
  storage : Raw
}.

(** The first render: every cell at its initial value, [best] read from the
    store. *)
Definition init (raw : Raw) : World :=
  mkWorld
    (mkState false false 0 (useLocalStorage_init raw 0) 0 1%Q 0 0%Q 0%Q 0%Q
             None [] (V.mk 0.5 0.5) 18%Q 0)
    (mkRefs [] 1 None false)
    raw.

Inductive Event :=
| Start                  (* [onClick={startGame}]: Start and Play Again *)
| ResetBest              (* [setBest(0); toast("Best reset")] *)
| TogglePause            (* [setPaused((p) => !p)] *)
| Resume                 (* [setPaused(false)] *)
| AnimationFrame (f : Frame)
| DecayInterval
| StreakEffect
| FlashTimeout
| Resize                 (* [setSeed((s) => s + 1)] *)
| PointerDown (rect : Rect) (eX eY : Q)
| PointerMove (rect : Rect) (eX eY : Q)
| PointerUp
| Share (nav : Navigator)
| Persist (writable : bool).

(** Whether the render [snap] offers the event: the button is on screen, or
    the effect that fires it is installed. *)
Definition enabled (ev : Event) (snap : State) : bool :=
  match ev with
  | Start | ResetBest => negb (running snap)
  | TogglePause => running snap
  | Resume => running snap && paused snap
  | AnimationFrame _ | DecayInterval => running snap && negb (paused snap)
  | Share _ => negb (running snap) && (score snap >? 0)
  | StreakEffect | FlashTimeout | Resize | PointerDown _ _ _
  | PointerMove _ _ _ | PointerUp | Persist _ => true
  end.

Definition onState (u : Upd) (w : World) : World :=
  mkWorld (u (st w)) (refs w) (storage w).

Definition onGame (g : State * Refs -> State * Refs) (w : World) : World :=
  let r := g (st w, refs w) in mkWorld (fst r) (snd r) (storage w).

(** The handler of [ev], as defined by the render [snap], run on [w]. *)
Definition apply (ev : Event) (snap : State) (w : World) : World :=
  match ev with
  | Start => onGame startGame w
  | ResetBest => onState (setBest (fun _ => 0) ;; toast "Best reset" skip)%upd w
  | TogglePause => onState (setPaused negb) w
  | Resume => onState (setPaused (fun _ => false)) w
  | AnimationFrame f => onGame (fun g => fst (tick snap f g)) w
  | DecayInterval => onState decay w
  | StreakEffect => onState (streakEffect snap) w
  | FlashTimeout => onState flashTimeout w
  | Resize => onState (setSeed (fun s => s + 1)) w
  | PointerDown rect eX eY => onGame (onDown rect eX eY) w
  | PointerMove rect eX eY => onGame (onMove rect eX eY) w
  | PointerUp => onGame onUp w
  | Share nav => onState (fst (shareScore nav snap)) w
  | Persist writable =>
      mkWorld (st w) (refs w)
              (useLocalStorage_sync writable (best (st w)) (storage w))
  end.

(** Histories, latest world first.  A handler closes over the state of some
    render of the history so far. *)
Inductive run : list World -> Prop :=
| run_init (raw : Raw) : run [init raw]
| run_step (h : list World) (w snap : World) (ev : Event) :
    run (w :: h) ->
    In snap (w :: h) ->
    enabled ev (st snap) = true ->
    run (apply ev (st snap) w :: w :: h).

Definition reachable (w : World) : Prop := exists h, run (w :: h).

(** Scripted histories: every event is handled by the latest render. *)
Definition extend (h : list World) (ev : Event) : list World :=
  match h with
  | [] => []
  | w :: _ => apply ev (st w) w :: h
  end.

Definition play (evs : list Event) (h : list World) : list World :=
  fold_left extend evs h.

(** The same, checking that the latest render offers each event. *)
Fixpoint playChecked (evs : list Event) (h : list World)
    : option (list World) :=
  match evs, h with
  | [], _ => Some h
  | ev :: rest, w :: _ =>
      if enabled ev (st w) then playChecked rest (extend h ev) else None
  | _ :: _, [] => None
  end.

End Host.

(** ** Concrete scenarios

    Closed examples need a concrete [Math.hypot]: the square root truncated
    to nine decimals, exact whenever the true value has at most nine. *)
Definition hypot9 (dx dy : Q) : Q :=
  (inject_Z (Z.sqrt (Qfloor ((dx * dx + dy * dy) * inject_Z (10 ^ 18))))
   / inject_Z (10 ^ 9))%Q.

(** A 400 x 400 arena at the origin of the page. *)
Definition arena400 : Rect := mkRect 0 0 400 400.

(** The draws of a spawn at the middle of the top edge, heading straight
    down; [r_bad] is the draw compared with [badShare]. *)
Definition topCentre (r_bad : Q) : SpawnDraws :=
  mkSpawnDraws 0.1 0.5 0.3 0.5 0.5 0.5 0.5 0.5 r_bad 0.5 0.5 0.

(** Frames 16 ms apart; a spawn draw of 0.99 spawns nothing, one of 0.01
    spawns when [dt] is 0.016 s. *)
Definition frameA : Frame :=
  mkFrame 1000 (Some arena400) 0.99 (topCentre 0.9) 5000
          (fun _ => 5000%Q) (fun _ => 0.5%Q).
Definition frameB : Frame :=
  mkFrame 1016 (Some arena400) 0.01 (topCentre 0.9) 5016
          (fun _ => 5016%Q) (fun _ => 0.5%Q).
Definition frameC : Frame :=
  mkFrame 1032 (Some arena400) 0.01 (topCentre 0.1) 5032
          (fun _ => 5032%Q) (fun _ => 0.5%Q).


(** A short game: start, a first frame, a frame that spawns a good orb at
    the top centre, the player dragged there, and a frame that spawns a
    hazard at the same place. *)
Definition w0 : World := init absent.
Definition w1 : World := apply hypot9 Start (st w0) w0.
Definition w2 : World := apply hypot9 (AnimationFrame frameA) (st w1) w1.
Definition w3 : World := apply hypot9 (AnimationFrame frameB) (st w2) w2.
Definition w4 : World := apply hypot9 (PointerDown arena400 200 0) (st w3) w3.
Definition w5 : World := apply hypot9 (AnimationFrame frameC) (st w4) w4.

(** A game lost at once: after the first frame the player is dragged to the
    top centre and the next frame spawns a hazard there. *)
Definition frameB' : Frame :=
  mkFrame 1016 (Some arena400) 0.01 (topCentre 0.1) 5016
          (fun _ => 5016%Q) (fun _ => 0.5%Q).
Definition y3 : World := apply hypot9 (PointerDown arena400 200 0) (st w2) w2.
Definition y4 : World := apply hypot9 (AnimationFrame frameB') (st y3) y3.

(** A power orb, as [handleCollect] receives it. *)
Definition powerOrb : Orb.t :=
  Orb.mk 21 power (V.mk 0.5 0) (V.mk 0 0.16625) 17 1000 7500 0.

(** A good orb, as [handleCollect] receives it. *)
Definition goodOrb : Orb.t :=
  Orb.mk 20 good (V.mk 0.5 0) (V.mk 0 0.16625) 13 1000 7500 0.

(** A longer game.  The player waits at the top centre; every 240 ms a
    frame spawns an orb there, which the player touches in the same frame;
    between two frames the streak effect and three decay ticks run.
    [r_bad] is the draw compared with [badShare]: 0.9 spawns a good orb,
    0.1 a hazard. *)
Definition frameAt (k : Z) (r_bad : Q) : Frame :=
  mkFrame (240 * inject_Z k) (Some arena400) 0.01 (topCentre r_bad)
          (5000 + 240 * inject_Z k)
          (fun _ => 5000 + 240 * inject_Z k)%Q (fun _ => 0.5%Q).

Definition round (k : Z) : list Event :=
  [AnimationFrame (frameAt k 0.9); StreakEffect; DecayInterval;
   DecayInterval; DecayInterval; StreakEffect].

Definition opening : list Event :=
  [Start; StreakEffect; AnimationFrame (frameAt 0 0.9);
   PointerDown arena400 200 0].

Definition rounds (n : nat) : list Event :=
  flat_map round (map Z.of_nat (List.seq 1 n)).

(** The history of the opening and nineteen rounds, evaluated. *)
Definition longGame : list World :=
  Eval vm_compute in play hypot9 (opening ++ rounds 19) [init absent].

(** The world after [n] of the nineteen rounds: the history lists the
    latest world first, and a round is six events. *)
Definition after (n : nat) : World :=
  nth (6 * (19 - n)) longGame (init absent).

(** The next frame after [n] rounds, spawning a good orb or a hazard. *)
Definition collectNext (n : nat) : World :=
  apply hypot9 (AnimationFrame (frameAt (Z.of_nat n + 1) 0.9))
        (st (after n)) (after n).

Definition hazardNext (n : nat) : World :=
  apply hypot9 (AnimationFrame (frameAt (Z.of_nat n + 1) 0.1))
        (st (after n)) (after n).

(** A quick game.  After the opening, five frames 16 ms apart each spawn a
    good orb under the player, the streak effect running after each; no
    decay tick falls in between.  The streak reaches 25, so the last streak
    effect raises the multiplier to 1.2. *)
Definition fastFrame (k : Z) : Frame :=
  mkFrame (16 * inject_Z k) (Some arena400) 0.01 (topCentre 0.9)
          (5000 + 16 * inject_Z k)
          (fun _ => 5000 + 16 * inject_Z k)%Q (fun _ => 0.5%Q).

Definition quickRound (k : Z) : list Event :=
  [AnimationFrame (fastFrame k); StreakEffect].

Definition quickGame : list World :=
  Eval vm_compute in
    play hypot9 (opening ++ flat_map quickRound [1; 2; 3; 4; 5]) [init absent].

(** The latest world of the quick game, rendered with multiplier 1.2, and
    the world before it: the render after the fifth orb, in which the score
    changed and the game loop was installed anew, and whose multiplier is
    still 1. *)
Definition heated : World := nth 0 quickGame (init absent).
Definition beforeEffect : World := nth 1 quickGame (init absent).

(** The sixth frame: run by the loop of [beforeEffect], which the later
    render does not replace since no dependency of the loop changed. *)
Definition staleCollect : World :=
  apply hypot9 (AnimationFrame (fastFrame 6)) (st beforeEffect) heated.

(** A stored best of 50 that the player resets, and the write-back. *)
Definition u0 : World := init (json 50).
Definition u1 : World := apply hypot9 ResetBest (st u0) u0.
Definition u2 : World := apply hypot9 (Persist true) (st u1) u1.

(** The best score as the store holds it. *)
Definition stored (w : World) : Z := useLocalStorage_init (storage w) 0.

(** ** Invariants of the event loop *)

(** The streak stays in [0, 100] and the multiplier in [1, 1.8]. *)
Definition bounded (s : State) : Prop :=
  0 <= streak s <= 100 /\ (1 <= mult s)%Q /\ (mult s <= 1.8)%Q.

(** The live orbs carry distinct identifiers, all below the next one. *)
Definition idsOk (r : Refs) : Prop :=
  NoDup (map Orb.id (orbsRef r))
  /\ Forall (fun o => Orb.id o < idRef r) (orbsRef r).

(** ** Further predicates on states, points and arenas *)

(** A point of the unit square. *)
Definition inUnit (v : V.t) : Prop :=
  (0 <= V.x v <= 1)%Q /\ (0 <= V.y v <= 1)%Q.

(** A measured arena: positive width and height. *)
Definition measured (rect : Rect) : Prop :=
  (0 < width rect)%Q /\ (0 < height rect)%Q.

(** Score, combo and the three buff timers are not negative. *)
Definition tallies (s : State) : Prop :=
  0 <= score s /\ 0 <= combo s
  /\ (0 <= slowmo s)%Q /\ (0 <= magnet s)%Q /\ (0 <= x2 s)%Q.

(** A draw of [Math.random()]: a number of [0, 1). *)
Definition draw (r : Q) : Prop := (0 <= r)%Q /\ (r < 1)%Q.

(** A series of pointer moves, each with the arena as measured then. *)
Definition moves (ms : list (Rect * Q * Q)) (w : State * Refs) : State * Refs :=
  fold_left (fun acc m => onMove (fst (fst m)) (snd (fst m)) (snd m) acc) ms w.

(** A decay tick as the renders show it: the interval callback, then, when
    the tick changed the streak, the effect on [streak] of the render that
    follows ([useEffect(..., [streak])]). *)
Definition decayTick (s : State) : State :=
  let s' := decay s in
  if streak s' =? streak s then s' else streakEffect s' s'.

(** * Properties *)

(** ** Updates and the cells they leave alone *)

Lemma Qltb_lt (a b : Q) : Qltb a b = true <-> (a < b)%Q.
Proof.
  unfold Qltb. rewrite negb_true_iff. split; intro H.
  - apply Qnot_le_lt. intro L. apply Qle_bool_iff in L. congruence.
  - destruct (Qle_bool b a) eqn:E; [|reflexivity].
    apply Qle_bool_iff in E. exfalso. apply (Qlt_not_le _ _ H E).
Qed.

Lemma Qltb_ge (a b : Q) : Qltb a b = false <-> (b <= a)%Q.
Proof.
  unfold Qltb. rewrite negb_false_iff. apply Qle_bool_iff.
Qed.

Lemma awardBadge_cases (snap : State) (m : Z) (s : State) :
  awardBadge snap m s = s \/
  awardBadge snap m s = setBadges (fun b => b ++ [badge m]) s.
Proof.
  unfold awardBadge, when.
  destruct (_ && _); [right | left]; reflexivity.
Qed.

(** A predicate on states that no badge update disturbs is kept by the
    whole milestone loop. *)
Lemma awardBadges_keeps (P : State -> Prop) (snap : State) :
  (forall f s, P s -> P (setBadges f s)) ->
  forall s, P s -> P (awardBadges snap s).
Proof.
  intros HP. unfold awardBadges. generalize milestones.
  induction l as [|m l IH]; intros s Hs; simpl; [assumption|].
  apply IH. destruct (awardBadge_cases snap m s) as [-> | ->]; auto.
Qed.

Lemma awardBadges_score (snap s : State) :
  score (awardBadges snap s) = score s.
Proof.
  apply (awardBadges_keeps (fun t => score t = score s)); auto.
Qed.

Lemma awardBadges_combo (snap s : State) :
  combo (awardBadges snap s) = combo s.
Proof.
  apply (awardBadges_keeps (fun t => combo t = combo s)); auto.
Qed.

Lemma awardBadges_x2 (snap s : State) : x2 (awardBadges snap s) = x2 s.
Proof.
  apply (awardBadges_keeps (fun t => x2 t = x2 s)); auto.
Qed.

Lemma awardBadges_best (snap s : State) : best (awardBadges snap s) = best s.
Proof.
  apply (awardBadges_keeps (fun t => best t = best s)); auto.
Qed.

(** The good branch of [handleCollect], cell by cell. *)
Lemma handleCollect_good_score (snap : State) (o : Orb.t) (ch : Q) (s : State) :
  Orb.kind o = good ->
  score (handleCollect snap o ch s) = score s + inc snap.
Proof.
  intro K. unfold handleCollect. rewrite K. unfold seq at 1.
  rewrite awardBadges_score. unfold seq, when, toast, skip.
  repeat match goal with |- context [if ?c then _ else _] => destruct c end;
    reflexivity.
Qed.

Lemma handleCollect_good_combo (snap : State) (o : Orb.t) (ch : Q) (s : State) :
  Orb.kind o = good ->
  combo (handleCollect snap o ch s) = combo s + 1.
Proof.
  intro K. unfold handleCollect. rewrite K. unfold seq at 1.
  rewrite awardBadges_combo. unfold seq, when, toast, skip.
  repeat match goal with |- context [if ?c then _ else _] => destruct c end;
    reflexivity.
Qed.

Lemma handleCollect_good_x2 (snap : State) (o : Orb.t) (ch : Q) (s : State) :
  Orb.kind o = good ->
  x2 (handleCollect snap o ch s)
  = if combo snap + 1 =? 10 then 4000%Q else x2 s.
Proof.
  intro K. unfold handleCollect. rewrite K. unfold seq at 1.
  rewrite awardBadges_x2. unfold seq, when, toast, skip.
  repeat match goal with |- context [if ?c then _ else _] => destruct c end;
    reflexivity.
Qed.

(** ** Scripted histories are histories *)

Lemma playChecked_run (hypot : Q -> Q -> Q) (evs : list Event) :
  forall h h' : list World,
  run hypot h -> playChecked hypot evs h = Some h' -> run hypot h'.
Proof.
  induction evs as [|ev rest IH]; intros h h' R P; simpl in P.
  - injection P as <-. exact R.
  - destruct h as [|w t]; [discriminate P|].
    destruct (enabled ev (st w)) eqn:E; [|discriminate P].
    apply (IH _ _ (run_step hypot t w w ev R (or_introl eq_refl) E) P).
Qed.

(** Every world of a history is reachable. *)
Lemma run_In (hypot : Q -> Q -> Q) (h : list World) (w : World) :
  run hypot h -> In w h -> reachable hypot w.
Proof.
  induction 1 as [raw | h x snap ev R IH I E]; intro H.
  - destruct H as [<- | []]. exists []. apply run_init.
  - destruct H as [<- | H]; [|exact (IH H)].
    exists (x :: h). apply run_step with (snap := snap); assumption.
Qed.

(** The short game is a history of the program. *)
Lemma short_game_first : run hypot9 [w2; w1; w0].
Proof.
  unfold w2. apply run_step with (snap := w1); [|left; reflexivity|reflexivity].
  unfold w1. apply run_step with (snap := w0); [|left; reflexivity|reflexivity].
  apply run_init.
Qed.

Lemma short_game_start : run hypot9 [w3; w2; w1; w0].
Proof.
  unfold w3. apply run_step with (snap := w2); [|left; reflexivity|reflexivity].
  exact short_game_first.
Qed.

Lemma short_game_run : run hypot9 [w5; w4; w3; w2; w1; w0].
Proof.
  unfold w5. apply run_step with (snap := w4); [|left; reflexivity|reflexivity].
  unfold w4. apply run_step with (snap := w3); [|left; reflexivity|reflexivity].
  exact short_game_start.
Qed.

Lemma longGame_run : run hypot9 longGame.
Proof.
  apply (playChecked_run hypot9 (opening ++ rounds 19) [init absent]).
  - apply run_init.
  - vm_compute. reflexivity.
Qed.

Lemma after_reachable (n : nat) : reachable hypot9 (after n).
Proof.
  apply (run_In hypot9 longGame); [exact longGame_run|].
  unfold after. apply nth_In.
  apply Nat.le_lt_trans with (6 * 19)%nat; [|vm_compute; lia].
  apply Nat.mul_le_mono_l. lia.
Qed.

Lemma next_frame (f : Frame) (w : World) :
  reachable hypot9 w ->
  enabled (AnimationFrame f) (st w) = true ->
  reachable hypot9 (apply hypot9 (AnimationFrame f) (st w) w).
Proof.
  intros [h R] E. exists (w :: h).
  apply run_step with (snap := w); [exact R | left; reflexivity | exact E].
Qed.

(** ** C9: the points of a good orb *)

(** The points of a good orb are computed from the multiplier and the
    score-double timer of the render the handler closes over, whatever the
    pending state is. *)
Lemma good_orb_points_of_render (snap : State) (o : Orb.t) (ch : Q)
    (s : State) :
  Orb.kind o = good ->
  score (handleCollect snap o ch s)
  = score s
    + Math_round (10 * mult snap * (if Qltb 0 (x2 snap) then 2 else 1))%Q.
Proof.
  intro K. rewrite (handleCollect_good_score snap o ch s K). reflexivity.
Qed.

Lemma quickGame_run : run hypot9 quickGame.
Proof.
  apply (playChecked_run hypot9
           (opening ++ flat_map quickRound [1; 2; 3; 4; 5]) [init absent]).
  - apply run_init.
  - vm_compute. reflexivity.
Qed.

(** C9.  In the quick game the fifth good orb brings the streak to 25 and
    the streak effect raises the multiplier to 1.2, score-double being
    inactive; the game loop still belongs to the render before that effect,
    since the multiplier is no dependency of the loop.  The sixth good orb
    then adds 10 to the score, not round(10 * 1.2) = 12. *)
Theorem C9_stale_multiplier :
  reachable hypot9 heated
  /\ reachable hypot9 staleCollect
  /\ (mult (st heated) == 1.2)%Q
  /\ x2 (st heated) = 0%Q
  /\ mult (st beforeEffect) = 1%Q
  /\ score (st beforeEffect) = score (st heated)
  /\ Math_round
       (10 * mult (st heated) * (if Qltb 0 (x2 (st heated)) then 2 else 1))%Q
     = 12
  /\ score (st heated) = 50
  /\ score (st staleCollect) = 60.
Proof.
  assert (R : run hypot9 (heated :: tl quickGame)) by exact quickGame_run.
  split; [eexists; exact R|].
  split.
  { exists (heated :: tl quickGame). unfold staleCollect.
    apply run_step with (snap := beforeEffect);
      [exact R | right; left; reflexivity | reflexivity]. }
  repeat split; vm_compute; reflexivity.
Qed.

(** ** C1: badges *)

(** What the milestone test amounts to on integers: the badge of [m] is
    queued exactly when the rendered score is [m - 1] and the rendered badge
    list lacks it. *)
Lemma awardBadge_spec (snap : State) (m : Z) (s : State) :
  awardBadge snap m s
  = if (score snap =? m - 1) && negb (includes (badge m) (badges snap))
    then setBadges (fun b => b ++ [badge m]) s
    else s.
Proof.
  unfold awardBadge, when, skip.
  replace ((score snap <? m) && (m <=? score snap + 1))
    with (score snap =? m - 1); [destruct (_ && _); reflexivity|].
  destruct (score snap =? m - 1) eqn:E, (score snap <? m) eqn:L,
    (m <=? score snap + 1) eqn:G; try reflexivity; exfalso;
    rewrite ?Z.eqb_eq, ?Z.eqb_neq, ?Z.ltb_lt, ?Z.ltb_ge, ?Z.leb_le,
      ?Z.leb_gt in *; lia.
Qed.

(** C1.  In the longer game the fifteenth good orb takes the score from 180
    to 200 while no badge is recorded, and none is recorded by it: the badge
    list is still empty after the frame. *)
Theorem C1_badge_200_not_awarded :
  reachable hypot9 (after 14)
  /\ reachable hypot9 (collectNext 14)
  /\ score (st (after 14)) = 180
  /\ includes (badge 200) (badges (st (after 14))) = false
  /\ score (st (collectNext 14)) = 200
  /\ badges (st (collectNext 14)) = [].
Proof.
  assert (R : reachable hypot9 (after 14)) by apply after_reachable.
  split; [exact R|].
  split; [apply next_frame; [exact R | vm_compute; reflexivity]|].
  repeat split; vm_compute; reflexivity.
Qed.

(** ** C3: score-double from the combo *)

(** C3, as stated, fails: in the longer game the twentieth good orb in a
    row brings the combo to 20, and the score-double timer is not set to
    4000 ms: it keeps running down from its activation at combo 10. *)
Lemma C3_combo_20_leaves_x2 :
  reachable hypot9 (after 19)
  /\ ~ (Orb.kind goodOrb = good ->
        0 < combo (handleCollect (st (after 19)) goodOrb 0 (st (after 19))) ->
        Z.rem (combo (handleCollect (st (after 19)) goodOrb 0
                        (st (after 19)))) 10 = 0 ->
        (x2 (handleCollect (st (after 19)) goodOrb 0 (st (after 19)))
         == 4000)%Q)
  /\ combo (st (collectNext 19)) = 20
  /\ ~ (x2 (st (collectNext 19)) == 4000)%Q.
Proof.
  split; [apply after_reachable|].
  split; [|split].
  - intro H.
    assert (E : (x2 (handleCollect (st (after 19)) goodOrb 0 (st (after 19)))
                 == 4000)%Q)
      by (apply H; vm_compute; reflexivity).
    vm_compute in E. discriminate E.
  - vm_compute. reflexivity.
  - intro E. vm_compute in E. discriminate E.
Qed.

(** C3, amended.  When the handler's render is current on the combo, a good
    orb that brings the combo to exactly 10 sets the score-double timer to
    4000 ms, and at any other resulting combo the timer is left as it was. *)
Theorem C3_score_double_at_combo_10 (snap : State) (o : Orb.t) (ch : Q)
    (s : State) :
  Orb.kind o = good ->
  combo snap = combo s ->
  (combo (handleCollect snap o ch s) = 10 ->
   x2 (handleCollect snap o ch s) = 4000%Q)
  /\ (combo (handleCollect snap o ch s) <> 10 ->
      x2 (handleCollect snap o ch s) = x2 s).
Proof.
  intros K C.
  rewrite (handleCollect_good_combo snap o ch s K),
    (handleCollect_good_x2 snap o ch s K), C.
  split; intro H.
  - rewrite H. reflexivity.
  - apply Z.eqb_neq in H. rewrite H. reflexivity.
Qed.

Lemma C3_score_double_at_combo_10_witness :
  x2 (handleCollect (st (after 9)) goodOrb 0 (st (after 9))) = 4000%Q.
Proof.
  apply (C3_score_double_at_combo_10 (st (after 9)) goodOrb 0 (st (after 9))).
  - reflexivity.
  - reflexivity.
  - vm_compute. reflexivity.
Defined.

(** ** C2: a hazard ends the run *)

Lemma handleCollect_best (snap : State) (o : Orb.t) (ch : Q) (s : State) :
  best (handleCollect snap o ch s) = best s.
Proof.
  unfold handleCollect. unfold seq at 1. rewrite awardBadges_best.
  destruct (Orb.kind o); unfold seq, when, toast, skip;
    repeat match goal with |- context [if ?c then _ else _] => destruct c end;
    reflexivity.
Qed.


(** C2.  In the short game the player sits on a good orb and on a hazard in
    the same frame of a running, unpaused render: the run ends with final
    score 10 while the best score stays 0. *)
Theorem C2_best_misses_final_score :
  reachable hypot9 w4
  /\ enabled (AnimationFrame frameC) (st w4) = true
  /\ best (st w4) = 0
  /\ snd (tick hypot9 (st w4) frameC (st w4, refs w4)) = false
  /\ running (st w5) = false
  /\ score (st w5) = 10
  /\ best (st w5) = 0
  /\ best (st w5) <> Z.max (best (st w4)) (score (st w5)).
Proof.
  split; [apply (run_In hypot9 _ w4 short_game_run); right; left; reflexivity|].
  repeat split; try (vm_compute; congruence).
Qed.

(** ** C4: sharing *)

(** C4, as stated, fails: where the native share exists and its promise is
    rejected (failure or dismissal), nothing is copied to the clipboard and
    no notice is shown, although the clipboard would have accepted the
    text. *)
Lemma C4_rejected_share_copies_nothing :
  let nav := mkNavigator (Some false) (Some true) in
  let s := st w5 in
  ~ In (ClipboardWrite (shareText s)) (snd (shareScore nav s))
  /\ flash (fst (shareScore nav s) s) <> Some "Copied! Share anywhere"%string.
Proof.
  vm_compute. split.
  - intros [H | []]. discriminate H.
  - discriminate.
Qed.

(** C4, amended.  The message is the fixed text around the decimal score.
    The text is copied to the clipboard exactly when the native share
    capability is absent (and a clipboard exists); the notice is shown
    exactly when that copy succeeds.  When the capability is present the
    only effect is the native share with title "Viral Arcade", whether it
    succeeds or not.  In every case the state apart from the notice is
    untouched. *)
Theorem C4_share_falls_back_only_when_absent (nav : Navigator)
    (snap s : State) :
  shareText (setScore (fun _ => 120) snap)
  = "I scored 120 in Viral Arcade! Can you beat me?"%string
  /\ (In (ClipboardWrite (shareText snap)) (snd (shareScore nav snap))
      <-> share nav = None /\ clipboard nav <> None)
  /\ (In (NativeShare "Viral Arcade" (shareText snap))
         (snd (shareScore nav snap))
      <-> share nav <> None)
  /\ (fst (shareScore nav snap) s
      = if match share nav, clipboard nav with
           | None, Some true => true
           | _, _ => false
           end
        then setFlash (fun _ => Some "Copied! Share anywhere"%string) s
        else s).
Proof.
  split; [reflexivity|].
  unfold shareScore.
  destruct (share nav) as [ok|]; [|destruct (clipboard nav) as [[|]|]];
    simpl; (split; [|split; [|reflexivity]]); split;
    try (intros [H | []]; discriminate H);
    try (intros [H _]; discriminate H);
    try (intros [_ H]; congruence);
    try (intros _; split; congruence);
    try (intros _; left; reflexivity);
    try (intro H; congruence);
    try (intros []).
Qed.

(** ** Frames and the state cells *)

Section Frames.

Variable hypot : Q -> Q -> Q.

(** A property of the state that collecting and ending keep is kept by the
    collision loop. *)
Lemma collide_keeps (P : State -> Prop) (snap : State) (rect : Rect)
    (choice : nat -> Q) :
  (forall o ch s, P s -> P (handleCollect snap o ch s)) ->
  (forall s, P s -> P (endGame snap s)) ->
  forall (os : list Orb.t) (i : nat) (w : State * Refs),
  P (fst w) -> P (fst (fst (collide snap rect choice i os w))).
Proof.
  intros HC HE. induction os as [|o rest IH]; intros i w Hw; simpl; auto.
  destruct (hit snap rect o); [|auto].
  destruct (Orb.kind o); simpl; auto; apply IH; simpl; auto.
Qed.

Lemma timers_keeps (P : State -> Prop) (snap : State) (dt : Q) :
  (forall f s, P s -> P (setSlowmo f s)) ->
  (forall f s, P s -> P (setMagnet f s)) ->
  (forall f s, P s -> P (setX2 f s)) ->
  forall s, P s -> P (timers snap dt s).
Proof.
  intros H1 H2 H3 s Hs. unfold timers, seq, when, skip.
  repeat match goal with |- context [if ?c then _ else _] => destruct c end;
    auto.
Qed.

(** The same for a whole frame. *)
Lemma tick_keeps (P : State -> Prop) (snap : State) (f : Frame) :
  (forall g s, P s -> P (setSlowmo g s)) ->
  (forall g s, P s -> P (setMagnet g s)) ->
  (forall g s, P s -> P (setX2 g s)) ->
  (forall o ch s, P s -> P (handleCollect snap o ch s)) ->
  (forall s, P s -> P (endGame snap s)) ->
  forall w, P (fst w) -> P (fst (fst (tick hypot snap f w))).
Proof.
  intros H1 H2 H3 HC HE w Hw. unfold tick.
  destruct (arena f) as [rect|]; [|exact Hw].
  apply collide_keeps; auto. simpl. apply timers_keeps; auto.
Qed.

End Frames.

(** ** C5: the best score *)

Lemma tick_best (hypot : Q -> Q -> Q) (snap : State) (f : Frame)
    (w : State * Refs) :
  best (fst w) <= best (fst (fst (tick hypot snap f w))).
Proof.
  apply (tick_keeps hypot (fun s => best (fst w) <= best s)); auto.
  - intros o ch s H. rewrite handleCollect_best. exact H.
  - intros s H. simpl. destruct (score snap >? best s) eqn:G; [|exact H].
    apply Z.gtb_lt in G. lia.
  - lia.
Qed.

(** C5, as stated, fails: with 50 in the store, the Reset Best button of the
    welcome screen sets the best score to 0, and the store then holds 0. *)
Lemma C5_reset_lowers_best :
  run hypot9 [u2; u1; u0]
  /\ best (st u0) = 50 /\ stored u0 = 50
  /\ best (st u1) = 0 /\ best (st u1) < best (st u0)
  /\ stored u2 = 0 /\ stored u2 < stored u0.
Proof.
  split.
  - unfold u2, u1.
    apply run_step with (snap := u1); [|left; reflexivity|reflexivity].
    apply run_step with (snap := u0); [|left; reflexivity|reflexivity].
    apply run_init.
  - repeat split; vm_compute; reflexivity.
Qed.

(** C5, amended.  Every event other than Reset Best leaves the best score
    where it was or raises it; and where the store holds no more than the
    best score, it is not lowered either and still holds no more. *)
Theorem C5_best_monotone_but_for_reset (hypot : Q -> Q -> Q) (ev : Event)
    (snap : State) (w : World) :
  ev <> ResetBest ->
  best (st w) <= best (st (apply hypot ev snap w))
  /\ (stored w <= best (st w) ->
      stored w <= stored (apply hypot ev snap w)
      /\ stored (apply hypot ev snap w) <= best (st (apply hypot ev snap w))).
Proof.
  intro N.
  assert (B : best (st w) <= best (st (apply hypot ev snap w))).
  { destruct ev; try congruence; simpl; try lia.
    - apply (tick_best hypot snap f (st w, refs w)).
    - unfold onMove. simpl. destruct (dragging (refs w)); simpl; lia.
    - unfold shareScore.
      destruct (share nav); [|destruct (clipboard nav) as [[|]|]];
        unfold toast, seq, skip; simpl; lia. }
  split; [exact B|]. intro S.
  assert (K : (exists b, ev = Persist b)
              \/ storage (apply hypot ev snap w) = storage w).
  { destruct ev; try (right; reflexivity). left. eexists. reflexivity. }
  destruct K as [[b ->] | K].
  - unfold stored in *. simpl. unfold useLocalStorage_sync.
    destruct b; simpl; lia.
  - unfold stored in *. rewrite K. lia.
Qed.

Lemma C5_best_monotone_but_for_reset_witness :
  best (st (after 19)) <= best (st (hazardNext 19)).
Proof.
  refine (proj1 (C5_best_monotone_but_for_reset hypot9
                   (AnimationFrame (frameAt (Z.of_nat 19 + 1) 0.1))
                   (st (after 19)) (after 19) _)).
  discriminate.
Defined.

(** ** C6: the overlays *)

Lemma shareScore_score (nav : Navigator) (snap s : State) :
  score (fst (shareScore nav snap) s) = score s.
Proof.
  unfold shareScore.
  destruct (share nav); [|destruct (clipboard nav) as [[|]|]]; reflexivity.
Qed.

(** Until a run starts nothing scores: in a history whose renders all have
    [running = false], the score is 0 throughout. *)
Lemma idle_score (hypot : Q -> Q -> Q) (h : list World) :
  run hypot h ->
  Forall (fun w => running (st w) = false) h ->
  Forall (fun w => score (st w) = 0) h.
Proof.
  induction 1 as [raw | h w snap ev R IH I E]; intro F.
  - constructor; [reflexivity | constructor].
  - inversion F as [|? ? F1 F2]; subst. specialize (IH F2).
    constructor; [|exact IH].
    assert (Rs : running (st snap) = false).
    { rewrite Forall_forall in F2. apply F2. exact I. }
    assert (Sw : score (st w) = 0) by (inversion IH; assumption).
    destruct ev; simpl in E; rewrite ?Rs in E; try discriminate E;
      simpl in F1; try discriminate F1; simpl; try exact Sw.
    + unfold onMove. simpl. destruct (dragging (refs w)); exact Sw.
    + rewrite shareScore_score. exact Sw.
Qed.

(** C6, as stated, fails: at the end of the short game the welcome screen
    and the game-over screen are both displayed; and at the end of the game
    lost at once, with score 0, the game-over screen is not displayed. *)
Lemma C6_welcome_with_game_over :
  reachable hypot9 w5
  /\ showWelcome (st w5) = true
  /\ showGameOver (st w5) = true
  /\ reachable hypot9 y4
  /\ running (st y3) = true
  /\ running (st y4) = false
  /\ showGameOver (st y4) = false.
Proof.
  split; [eexists; exact short_game_run|].
  split; [vm_compute; reflexivity|].
  split; [vm_compute; reflexivity|].
  split; [|repeat split; vm_compute; reflexivity].
  exists [y3; w2; w1; w0].
  unfold y4. apply run_step with (snap := y3); [|left; reflexivity|reflexivity].
  unfold y3. apply run_step with (snap := w2); [|left; reflexivity|reflexivity].
  exact short_game_first.
Qed.

(** C6, amended.  In every reachable state: the pause screen is displayed
    exactly when the game is running and paused, and then neither of the
    other two is; the welcome screen is displayed exactly when the game is
    not running, before the first run as well as after a run; the game-over
    screen is displayed exactly when the game is not running and the score
    is positive, hence only together with the welcome screen; and as long
    as no run has started the welcome screen alone is displayed. *)
Theorem C6_overlays (hypot : Q -> Q -> Q) (h : list World) (w : World) :
  run hypot (w :: h) ->
  (showPause (st w) = true <-> running (st w) = true /\ paused (st w) = true)
  /\ (showPause (st w) = true ->
      showWelcome (st w) = false /\ showGameOver (st w) = false)
  /\ (showWelcome (st w) = true <-> running (st w) = false)
  /\ (showGameOver (st w) = true
      <-> running (st w) = false /\ 0 < score (st w))
  /\ (showGameOver (st w) = true -> showWelcome (st w) = true)
  /\ (Forall (fun x => running (st x) = false) (w :: h) ->
      showWelcome (st w) = true /\ showPause (st w) = false
      /\ showGameOver (st w) = false).
Proof.
  intro R.
  assert (I : Forall (fun x => running (st x) = false) (w :: h) ->
              running (st w) = false /\ score (st w) = 0).
  { intro F. pose proof (idle_score hypot _ R F) as S.
    inversion F; inversion S; subst. split; assumption. }
  assert (G : (score (st w) >? 0) = true <-> 0 < score (st w))
    by apply Z.gtb_lt.
  unfold showPause, showWelcome, showGameOver.
  destruct (running (st w)), (paused (st w)); simpl;
    repeat (split; try tauto; try (intros [? ?]; discriminate);
            try (intro; discriminate));
    try (intros F; destruct (I F); discriminate);
    match goal with
    | F : Forall _ _ |- _ => destruct (I F) as [Rn Z0]
    end; try discriminate Rn; rewrite Z0; reflexivity.
Qed.

Lemma C6_overlays_witness :
  showWelcome (st w0) = true /\ showPause (st w0) = false
  /\ showGameOver (st w0) = false.
Proof.
  apply (C6_overlays hypot9 [] w0).
  - apply run_init.
  - constructor; [reflexivity | constructor].
Defined.

(** ** C8: the kind of a spawned orb *)

(** C8, as stated, fails: the kind is not a function of one draw.  At score
    0 the draws 0.5 and 0.1 give a hazard and the draws 0.5 and 0.9 a good
    orb, so the first draw does not determine the kind; the draws 0.05 and
    0.5 give a power-up and 0.5 and 0.5 a good orb, so the second does not
    either; and the one-draw rule of the specification, applied to either
    draw, differs from the code. *)
Lemma C8_kind_not_from_one_draw :
  ~ (exists k : Q -> Kind, forall a b, spawnKind (difficulty 0) a b = k a)
  /\ ~ (exists k : Q -> Kind, forall a b, spawnKind (difficulty 0) a b = k b)
  /\ spawnKind (difficulty 0) 0.5 0.1 <> singleDrawKind (difficulty 0) 0.5
  /\ spawnKind (difficulty 0) 0.05 0.5 <> singleDrawKind (difficulty 0) 0.5.
Proof.
  repeat split.
  - intros [k H].
    pose proof (H 0.5%Q 0.1%Q) as A. pose proof (H 0.5%Q 0.9%Q) as B.
    vm_compute in A, B. congruence.
  - intros [k H].
    pose proof (H 0.05%Q 0.5%Q) as A. pose proof (H 0.5%Q 0.5%Q) as B.
    vm_compute in A, B. congruence.
  - vm_compute. discriminate.
  - vm_compute. discriminate.
Qed.

(** C8, amended.  [spawnOrb] appends one orb whose kind comes from two draws:
    power when the first is below [powerChance]; otherwise bad when the
    second is below [badShare]; otherwise good. *)
Theorem C8_kind_from_two_draws (hypot : Q -> Q -> Q) (snap : State)
    (rect : Rect) (d : SpawnDraws) (now : Q) (r : Refs) :
  exists o : Orb.t,
    orbsRef (spawnOrb hypot snap (Some rect) d now r) = orbsRef r ++ [o]
    /\ ((d_power d < powerChance (difficulty (score snap)))%Q ->
        Orb.kind o = power)
    /\ ((powerChance (difficulty (score snap)) <= d_power d)%Q ->
        (d_bad d < badShare (difficulty (score snap)))%Q ->
        Orb.kind o = bad)
    /\ ((powerChance (difficulty (score snap)) <= d_power d)%Q ->
        (badShare (difficulty (score snap)) <= d_bad d)%Q ->
        Orb.kind o = good).
Proof.
  unfold spawnOrb. eexists. split; [reflexivity|]. cbn [Orb.kind].
  unfold spawnKind. repeat split.
  - intro P. apply Qltb_lt in P. rewrite P. reflexivity.
  - intros P B. apply Qltb_ge in P. apply Qltb_lt in B. rewrite P, B.
    reflexivity.
  - intros P B. apply Qltb_ge in P. apply Qltb_ge in B. rewrite P, B.
    reflexivity.
Qed.

(** ** C10: the multiplier *)

Lemma clamp_bounds (v a b : Q) : (a <= b)%Q -> (a <= clamp v a b <= b)%Q.
Proof.
  intro H. unfold clamp. split.
  - apply Q.le_max_l.
  - apply Q.max_lub; [exact H | apply Q.le_min_l].
Qed.

Lemma clamp_le (v a b c : Q) : (a <= c)%Q -> (v <= c)%Q -> (clamp v a b <= c)%Q.
Proof.
  intros A V. unfold clamp. apply Q.max_lub; [exact A|].
  eapply Qle_trans; [apply Q.le_min_r | exact V].
Qed.

(** The streak-derived multiplier of a streak in [0, 100] is one of 1, 1.2,
    1.4, 1.6, 1.8. *)
Lemma streak_multiplier (n : Z) :
  0 <= n <= 100 ->
  let m := clamp (toFixed1 (1 + inject_Z (Qfloor (inject_Z n / 25)) * 0.2)) 1 4
  in (1 <= m)%Q /\ (m <= 1.8)%Q.
Proof.
  intros H. cbv zeta.
  change (inject_Z n / 25)%Q with (inject_Z n / inject_Z 25)%Q.
  rewrite <- (Zdiv_Qdiv n 25).
  assert (K : 0 <= n / 25 <= 4).
  { split; [apply Z.div_pos; lia | apply Z.div_le_upper_bound; lia]. }
  assert (C : n / 25 = 0 \/ n / 25 = 1 \/ n / 25 = 2 \/ n / 25 = 3
              \/ n / 25 = 4) by lia.
  destruct C as [-> | [-> | [-> | [-> | ->]]]]; vm_compute;
    split; discriminate.
Qed.

Lemma handleCollect_bounded (snap : State) (o : Orb.t) (ch : Q) (s : State) :
  bounded s -> bounded (handleCollect snap o ch s).
Proof.
  intros (S & M1 & M2). unfold handleCollect. unfold seq at 1.
  apply awardBadges_keeps; [intros f t B; exact B|].
  unfold bounded.
  destruct (Orb.kind o); unfold seq, when, toast, skip;
    repeat match goal with |- context [if ?c then _ else _] => destruct c end;
    simpl; repeat split; try assumption; lia.
Qed.

Lemma decay_bounded (s : State) : bounded s -> bounded (decay s).
Proof.
  intros (S & M1 & M2). unfold bounded, decay, seq. simpl.
  repeat split; try lia.
  - apply clamp_bounds. discriminate.
  - apply clamp_le; [discriminate|].
    apply Qle_trans with (mult s); [|exact M2].
    rewrite <- (Qmult_1_r (mult s)) at 2.
    apply Qmult_le_l; [|discriminate].
    apply Qlt_le_trans with 1%Q; [reflexivity | exact M1].
Qed.

(** Every state of every history keeps the streak in [0, 100] and the
    multiplier in [1, 1.8]. *)
Lemma run_bounded (hypot : Q -> Q -> Q) (h : list World) :
  run hypot h -> Forall (fun w => bounded (st w)) h.
Proof.
  induction 1 as [raw | h w snap ev R IH I E].
  - constructor; [|constructor]. unfold bounded. simpl.
    repeat split; try lia; discriminate.
  - constructor; [|exact IH].
    assert (Bs : bounded (st snap)).
    { rewrite Forall_forall in IH. apply IH. exact I. }
    assert (Bw : bounded (st w)) by (inversion IH; assumption).
    destruct ev; simpl; try exact Bw.
    + unfold bounded. simpl. repeat split; try lia; discriminate.
    + apply (tick_keeps hypot bounded); auto.
      * intros o ch s. apply handleCollect_bounded.
      * intros s _. unfold bounded. simpl. repeat split; try lia; discriminate.
    + apply decay_bounded. exact Bw.
    + destruct Bw as (S & _). destruct Bs as (Ss & _).
      unfold bounded, streakEffect. simpl. split; [exact S|].
      apply streak_multiplier. exact Ss.
    + unfold onMove. simpl. destruct (dragging (refs w)); exact Bw.
    + unfold shareScore.
      destruct (share nav); [|destruct (clipboard nav) as [[|]|]]; exact Bw.
Qed.

(** C10.  In every reachable state the multiplier lies in [1, 1.8] (and the
    streak in [0, 100]); the caps 4 and 5 of the two clamps are never
    reached. *)
Theorem C10_multiplier_at_most_1_8 (hypot : Q -> Q -> Q) (w : World) :
  reachable hypot w ->
  (1 <= mult (st w))%Q /\ (mult (st w) <= 1.8)%Q
  /\ (mult (st w) < 4)%Q /\ (mult (st w) < 5)%Q
  /\ 0 <= streak (st w) <= 100.
Proof.
  intros [h R]. pose proof (run_bounded hypot _ R) as F.
  inversion F as [|? ? (S & M1 & M2) _]; subst.
  repeat split; try assumption; try lia.
  - apply Qle_lt_trans with 1.8%Q; [exact M2 | reflexivity].
  - apply Qle_lt_trans with 1.8%Q; [exact M2 | reflexivity].
Qed.

Lemma C10_multiplier_at_most_1_8_witness :
  (1 <= mult (st w5))%Q /\ (mult (st w5) <= 1.8)%Q
  /\ (mult (st w5) < 4)%Q /\ (mult (st w5) < 5)%Q
  /\ 0 <= streak (st w5) <= 100.
Proof.
  apply (C10_multiplier_at_most_1_8 hypot9 w5).
  eexists. exact short_game_run.
Defined.

(** ** C7: expiry of orbs *)

Section Expiry.

Variable hypot : Q -> Q -> Q.


(** The new orbs are the moved orbs whose age, read when the loop visits
    them, is below their time-to-live. *)
Lemma moveOrbs_In (snap : State) (rect : Rect) (edt : Q) (clock : nat -> Q)
    (x : Orb.t) (os : list Orb.t) :
  forall i : nat,
  In x (moveOrbs hypot snap rect edt clock i os) <->
  exists (j : nat) (o : Orb.t),
    nth_error os j = Some o /\ x = moveOrb hypot snap rect edt o
    /\ alive (clock (i + j)%nat) x = true.
Proof.
  induction os as [|a rest IH]; intro i; simpl.
  - split; [intros [] | intros (j & o & N & _)]. destruct j; discriminate N.
  - split.
    + intro H.
      destruct (alive (clock i) (moveOrb hypot snap rect edt a)) eqn:A.
      * destruct H as [<- | H].
        -- exists 0%nat, a. rewrite Nat.add_0_r. auto.
        -- apply IH in H. destruct H as (j & o & N & E & L).
           exists (S j), o. rewrite Nat.add_succ_r. auto.
      * apply IH in H. destruct H as (j & o & N & E & L).
        exists (S j), o. rewrite Nat.add_succ_r. auto.
    + intros (j & o & N & E & L). destruct j as [|j]; simpl in N.
      * injection N as ->. rewrite Nat.add_0_r in L. subst x. rewrite L.
        left. reflexivity.
      * assert (T : In x (moveOrbs hypot snap rect edt clock (S i) rest)).
        { apply IH. exists j, o. rewrite Nat.add_succ_r in L. auto. }
        destruct (alive (clock i) (moveOrb hypot snap rect edt a));
          [right|]; exact T.
Qed.

(** The collision loop only removes orbs, and only those that share the
    identifier of an orb the player touches. *)
Lemma collide_orbs_subset (snap : State) (rect : Rect) (choice : nat -> Q)
    (x : Orb.t) (os : list Orb.t) :
  forall (i : nat) (w : State * Refs),
  In x (orbsRef (snd (fst (collide snap rect choice i os w)))) ->
  In x (orbsRef (snd w)).
Proof.
  induction os as [|o rest IH]; intros i w H; simpl in H; [exact H|].
  destruct (hit snap rect o); [|exact (IH _ _ H)].
  destruct (Orb.kind o); try exact H;
    apply IH in H; simpl in H; apply filter_In in H; tauto.
Qed.


(** Identifiers: the orbs of a reachable world carry distinct identifiers,
    all below the next identifier. *)
Lemma moveOrbs_ids (snap : State) (rect : Rect) (edt : Q) (clock : nat -> Q)
    (n : Z) (os : list Orb.t) :
  forall i : nat,
  NoDup (map Orb.id os) -> Forall (fun o => Orb.id o < n) os ->
  NoDup (map Orb.id (moveOrbs hypot snap rect edt clock i os))
  /\ Forall (fun o => Orb.id o < n) (moveOrbs hypot snap rect edt clock i os).
Proof.
  induction os as [|a rest IH]; intros i D F; simpl.
  - split; constructor.
  - inversion D as [|? ? Na Dr]; subst. inversion F as [|? ? Fa Fr]; subst.
    destruct (IH (S i) Dr Fr) as [D' F'].
    destruct (alive (clock i) (moveOrb hypot snap rect edt a));
      [|split; assumption].
    split; simpl.
    + constructor; [|exact D']. intro M. apply Na.
      apply in_map_iff in M. destruct M as (y & Ey & My).
      apply moveOrbs_In in My. destruct My as (j & o & N & -> & _).
      simpl in Ey. rewrite <- Ey. apply in_map.
      eapply nth_error_In. exact N.
    + constructor; [exact Fa | exact F'].
Qed.

Lemma filter_ids (p : Orb.t -> bool) (n : Z) (os : list Orb.t) :
  NoDup (map Orb.id os) -> Forall (fun o => Orb.id o < n) os ->
  NoDup (map Orb.id (filter p os))
  /\ Forall (fun o => Orb.id o < n) (filter p os).
Proof.
  induction os as [|a rest IH]; intros D F; simpl.
  - split; constructor.
  - inversion D as [|? ? Na Dr]; subst. inversion F as [|? ? Fa Fr]; subst.
    destruct (IH Dr Fr) as [D' F']. destruct (p a); [|split; assumption].
    split; simpl; constructor; auto. intro M. apply Na.
    apply in_map_iff in M. destruct M as (y & Ey & My).
    apply filter_In in My. rewrite <- Ey. apply in_map. tauto.
Qed.

Lemma collide_ids (snap : State) (rect : Rect) (choice : nat -> Q)
    (os : list Orb.t) :
  forall (i : nat) (w : State * Refs),
  idsOk (snd w) -> idsOk (snd (fst (collide snap rect choice i os w))).
Proof.
  induction os as [|o rest IH]; intros i w H; simpl; [exact H|].
  destruct (hit snap rect o); [|apply IH; exact H].
  destruct (Orb.kind o); try exact H; apply IH; simpl;
    destruct H as [D F]; apply filter_ids; assumption.
Qed.

Lemma spawnPhase_ids (snap : State) (f : Frame) (dt : Q) (r : Refs) :
  idsOk r -> idsOk (spawnPhase hypot snap f dt r).
Proof.
  intros [D F]. unfold spawnPhase.
  destruct (Qltb _ _); [|split; assumption].
  unfold spawnOrb. destruct (arena f); [|split; assumption].
  split; simpl.
  - rewrite map_app. simpl.
    apply NoDup_app; [exact D | constructor; [intros [] | constructor] |].
    intros a A [<- | []]. apply in_map_iff in A. destruct A as (y & Ey & Iy).
    rewrite Forall_forall in F. specialize (F y Iy). simpl in Ey. lia.
  - apply Forall_app. split.
    + eapply Forall_impl; [|exact F]. simpl. intros; lia.
    + constructor; [simpl; lia | constructor].
Qed.

Lemma tick_ids (snap : State) (f : Frame) (w : State * Refs) :
  idsOk (snd w) -> idsOk (snd (fst (tick hypot snap f w))).
Proof.
  intro H. unfold tick. destruct (arena f) as [rect|]; [|exact H].
  apply collide_ids. simpl.
  assert (S : idsOk (spawnPhase hypot snap f (frameDt f (snd w))
                       (setLastTs (Some (ts f)) (snd w)))).
  { apply spawnPhase_ids. exact H. }
  destruct S as [D F]. unfold movePhase. split; simpl.
  - eapply moveOrbs_ids; eassumption.
  - eapply moveOrbs_ids; eassumption.
Qed.

Lemma run_ids (h : list World) :
  run hypot h -> Forall (fun w => idsOk (refs w)) h.
Proof.
  induction 1 as [raw | h w snap ev R IH I E].
  - constructor; [|constructor]. split; constructor.
  - constructor; [|exact IH].
    assert (Hw : idsOk (refs w)) by (inversion IH; assumption).
    destruct ev; simpl; try exact Hw.
    + split; constructor.
    + apply (tick_ids (st snap) f (st w, refs w)). exact Hw.
    + unfold onMove. simpl. destruct (dragging (refs w)); exact Hw.
Qed.

End Expiry.


(** A spawned orb is born at the reading of the clock and lives for
    5000 + 5000 r milliseconds, r being its draw. *)
Lemma spawnOrb_lifetime (hypot : Q -> Q -> Q) (snap : State) (rect : Rect)
    (d : SpawnDraws) (now : Q) (r : Refs) :
  exists o : Orb.t,
    orbsRef (spawnOrb hypot snap (Some rect) d now r) = orbsRef r ++ [o]
    /\ Orb.bornAt o = now
    /\ (Orb.ttl o == 5000 + 5000 * d_ttl d)%Q.
Proof.
  unfold spawnOrb. eexists. split; [reflexivity|]. simpl.
  split; [reflexivity|]. unfold rand. ring.
Qed.



(** * Further properties *)

(** ** The difficulty curve *)

Lemma ramp_bounds (s : Z) :
  0 <= s -> (0 <= Qmin 1 (inject_Z s / 5000) <= 1)%Q.
Proof.
  intro H. split; [|apply Q.le_min_l].
  apply Q.min_glb; [discriminate|].
  apply Qle_shift_div_l; [reflexivity|].
  rewrite Qmult_0_l. change 0%Q with (inject_Z 0). rewrite <- Zle_Qle. exact H.
Qed.

Lemma ramp_mono (s s' : Z) :
  s <= s' ->
  (Qmin 1 (inject_Z s / 5000) <= Qmin 1 (inject_Z s' / 5000))%Q.
Proof.
  intro H. apply Q.min_le_compat_l.
  apply Qmult_le_compat_r; [|discriminate].
  rewrite <- Zle_Qle. exact H.
Qed.

(** At score 0 the curve gives 0.9 spawns per second, speed 70, hazard share
    0.35 and power-up chance 0.08; from score 5000 on it stays at 3.1, 240,
    0.6 and 0.13. *)
Theorem difficulty_ends (s : Z) :
  5000 <= s ->
  ((spawnRate (difficulty 0) == 0.9)%Q /\ (speed (difficulty 0) == 70)%Q
   /\ (badShare (difficulty 0) == 0.35)%Q
   /\ (powerChance (difficulty 0) == 0.08)%Q)
  /\ ((spawnRate (difficulty s) == 3.1)%Q /\ (speed (difficulty s) == 240)%Q
      /\ (badShare (difficulty s) == 0.6)%Q
      /\ (powerChance (difficulty s) == 0.13)%Q).
Proof.
  intro H. split; [repeat split; reflexivity|].
  assert (T : (Qmin 1 (inject_Z s / 5000) == 1)%Q).
  { apply Q.min_l. apply Qle_shift_div_l; [reflexivity|].
    change (1 * 5000)%Q with (inject_Z 5000). rewrite <- Zle_Qle. exact H. }
  unfold difficulty. cbn [spawnRate speed badShare powerChance].
  rewrite T. repeat split; reflexivity.
Qed.

Lemma difficulty_ends_witness :
  (spawnRate (difficulty 6000) == 3.1)%Q /\ (speed (difficulty 6000) == 240)%Q
  /\ (badShare (difficulty 6000) == 0.6)%Q
  /\ (powerChance (difficulty 6000) == 0.13)%Q.
Proof.
  apply (difficulty_ends 6000). lia.
Defined.

(** For scores that are not negative, every component of the curve grows
    with the score and stays between its value at 0 and its value at 5000. *)
Theorem difficulty_ramp (s s' : Z) :
  0 <= s -> s <= s' ->
  ((spawnRate (difficulty s) <= spawnRate (difficulty s'))%Q
   /\ (speed (difficulty s) <= speed (difficulty s'))%Q
   /\ (badShare (difficulty s) <= badShare (difficulty s'))%Q
   /\ (powerChance (difficulty s) <= powerChance (difficulty s'))%Q)
  /\ ((0.9 <= spawnRate (difficulty s) <= 3.1)%Q
      /\ (70 <= speed (difficulty s) <= 240)%Q
      /\ (0.35 <= badShare (difficulty s) <= 0.6)%Q
      /\ (0.08 <= powerChance (difficulty s) <= 0.13)%Q).
Proof.
  intros H L.
  pose proof (ramp_bounds s H) as [B0 B1].
  pose proof (ramp_mono s s' L) as M.
  unfold difficulty. cbn [spawnRate speed badShare powerChance].
  set (t := Qmin 1 (inject_Z s / 5000)) in *.
  set (t' := Qmin 1 (inject_Z s' / 5000)) in *.
  repeat split; lra.
Qed.

Lemma difficulty_ramp_witness :
  (spawnRate (difficulty 100) <= spawnRate (difficulty 2500))%Q
  /\ (speed (difficulty 100) <= speed (difficulty 2500))%Q
  /\ (badShare (difficulty 100) <= badShare (difficulty 2500))%Q
  /\ (powerChance (difficulty 100) <= powerChance (difficulty 2500))%Q.
Proof.
  apply (difficulty_ramp 100 2500); lia.
Defined.

(** ** Input *)

Lemma clamp_inside (v a b : Q) :
  (a <= v)%Q -> (v <= b)%Q -> (clamp v a b == v)%Q.
Proof.
  intros A B. unfold clamp.
  rewrite (Q.min_r b v B). apply Q.max_r. exact A.
Qed.

Lemma clamp_below (v a b : Q) :
  (v <= a)%Q -> (a <= b)%Q -> (clamp v a b == a)%Q.
Proof.
  intros A B. unfold clamp. apply Q.max_l.
  eapply Qle_trans; [apply Q.le_min_r | exact A].
Qed.

Lemma clamp_above (v a b : Q) :
  (b <= v)%Q -> (a <= b)%Q -> (clamp v a b == b)%Q.
Proof.
  intros A B. unfold clamp.
  rewrite (Q.min_l b v A). apply Q.max_r. exact B.
Qed.

Lemma clamp_unit (v : Q) : (0 <= clamp v 0 1 <= 1)%Q.
Proof.
  apply clamp_bounds. discriminate.
Qed.

(** In a measured arena the pointer is mapped into the unit square wherever
    it is: a pointer over the arena gives its proportion of the width, a
    pointer left of the arena gives 0 and one right of it gives 1 (and the
    same vertically). *)
Theorem toNorm_clamps (rect : Rect) (eX eY : Q) :
  measured rect ->
  inUnit (toNorm rect eX eY)
  /\ ((left rect <= eX)%Q -> (eX <= left rect + width rect)%Q ->
      (V.x (toNorm rect eX eY) == (eX - left rect) / width rect)%Q)
  /\ ((eX <= left rect)%Q -> (V.x (toNorm rect eX eY) == 0)%Q)
  /\ ((left rect + width rect <= eX)%Q -> (V.x (toNorm rect eX eY) == 1)%Q)
  /\ ((top rect <= eY)%Q -> (eY <= top rect + height rect)%Q ->
      (V.y (toNorm rect eX eY) == (eY - top rect) / height rect)%Q)
  /\ ((eY <= top rect)%Q -> (V.y (toNorm rect eX eY) == 0)%Q)
  /\ ((top rect + height rect <= eY)%Q -> (V.y (toNorm rect eX eY) == 1)%Q).
Proof.
  intros [W H]. unfold toNorm, inUnit. cbn [V.x V.y].
  split; [split; apply clamp_unit|].
  repeat split; intros.
  - apply clamp_inside.
    + apply Qle_shift_div_l; [exact W | lra].
    + apply Qle_shift_div_r; [exact W | lra].
  - apply clamp_below; [|discriminate].
    apply Qle_shift_div_r; [exact W | lra].
  - apply clamp_above; [|discriminate].
    apply Qle_shift_div_l; [exact W | lra].
  - apply clamp_inside.
    + apply Qle_shift_div_l; [exact H | lra].
    + apply Qle_shift_div_r; [exact H | lra].
  - apply clamp_below; [|discriminate].
    apply Qle_shift_div_r; [exact H | lra].
  - apply clamp_above; [|discriminate].
    apply Qle_shift_div_l; [exact H | lra].
Qed.

Lemma toNorm_clamps_witness : inUnit (toNorm arena400 950 (-20)).
Proof.
  apply (toNorm_clamps arena400 950 (-20)). split; reflexivity.
Defined.

Lemma moves_dragging (ms : list (Rect * Q * Q)) :
  forall w, dragging (snd (moves ms w)) = dragging (snd w).
Proof.
  unfold moves. induction ms as [|m ms IH]; intro w; simpl; [reflexivity|].
  rewrite IH. unfold onMove.
  destruct (dragging (snd w)) eqn:D; [simpl; exact D | exact D].
Qed.

(** Moves count only between a press and the release: after a release, and
    in a fresh session before any press, any series of pointer moves leaves
    everything as it is; after a press the player is where the latest move
    puts it. *)
Theorem moves_need_a_press (ms : list (Rect * Q * Q)) (w : State * Refs)
    (raw : Raw) (rect0 rect : Rect) (x0 y0 x y : Q) :
  moves ms (onUp w) = onUp w
  /\ moves ms (st (init raw), refs (init raw))
     = (st (init raw), refs (init raw))
  /\ player (fst (moves (ms ++ [(rect, x, y)]) (onDown rect0 x0 y0 w)))
     = toNorm rect x y.
Proof.
  assert (N : forall v, dragging (snd v) = false -> moves ms v = v).
  { unfold moves. induction ms as [|m l IH]; intros v D; simpl; [reflexivity|].
    unfold onMove at 2. rewrite D. apply IH. exact D. }
  split; [apply N; reflexivity|]. split; [apply N; reflexivity|].
  unfold moves. rewrite fold_left_app. simpl.
  fold (moves ms (onDown rect0 x0 y0 w)).
  unfold onMove. rewrite moves_dragging. reflexivity.
Qed.

(** ** The best-score store *)

(** What a successful write-back stores is what a new session reads as its
    best score; a failed write leaves the store as it was; a missing or
    unreadable entry reads as 0. *)
Theorem best_survives_a_session (hypot : Q -> Q -> Q) (snap : State)
    (w : World) :
  best (st (init (storage (apply hypot (Persist true) snap w)))) = best (st w)
  /\ storage (apply hypot (Persist false) snap w) = storage w
  /\ best (st (init absent)) = 0
  /\ best (st (init corrupt)) = 0.
Proof.
  repeat split.
Qed.

(** ** Collecting *)

(** The milestone loop touches nothing but the badge list. *)
Lemma awardBadges_frame (T : Type) (f : State -> T) (snap t : State) :
  (forall g u, f (setBadges g u) = f u) ->
  f (awardBadges snap t) = f t.
Proof.
  intro Hf. apply (awardBadges_keeps (fun u => f u = f t)); [|reflexivity].
  intros g u E. rewrite Hf. exact E.
Qed.

(** Reduces a goal on one cell of [handleCollect snap o ch s], the kind of
    [o] being known by [K], to the cell after the branch of that kind. *)
Ltac collect_cell K :=
  unfold handleCollect; rewrite K; unfold seq at 1;
  match goal with
  | |- ?f (awardBadges ?a ?b) = _ =>
      rewrite (awardBadges_frame _ f a b) by reflexivity
  end;
  unfold seq, when, toast, skip.

Lemma Math_round_mono (a b : Q) :
  (a <= b)%Q -> Math_round a <= Math_round b.
Proof.
  intro H. unfold Math_round. apply Qfloor_resp_le. lra.
Qed.

(** With the multiplier in [1, 1.8], a good orb is worth between 10 and 36
    points. *)
Lemma inc_bounds (snap : State) : bounded snap -> 10 <= inc snap <= 36.
Proof.
  intros (_ & M1 & M2). unfold inc.
  assert (L : 10 <= Math_round 10) by (apply Z.leb_le; reflexivity).
  assert (U : Math_round 36 <= 36) by (apply Z.leb_le; reflexivity).
  destruct (Qltb 0 (x2 snap)); cbv iota; split;
    first [ apply (Z.le_trans _ _ _ L); apply Math_round_mono; lra
          | refine (Z.le_trans _ _ _ _ U); apply Math_round_mono; lra ].
Qed.

(** In every reachable state, whichever earlier render the handler belongs
    to, a good orb adds at least 10 and at most 36 points. *)
Theorem good_orb_between_10_and_36 (hypot : Q -> Q -> Q) (h : list World)
    (w snap : World) (o : Orb.t) (ch : Q) :
  run hypot (w :: h) ->
  In snap (w :: h) ->
  Orb.kind o = good ->
  score (st w) + 10 <= score (handleCollect (st snap) o ch (st w))
  /\ score (handleCollect (st snap) o ch (st w)) <= score (st w) + 36.
Proof.
  intros R I K. rewrite (handleCollect_good_score _ o ch _ K).
  pose proof (run_bounded hypot _ R) as F. rewrite Forall_forall in F.
  pose proof (inc_bounds (st snap) (F snap I)). lia.
Qed.

Lemma good_orb_between_10_and_36_witness :
  score (st w4) + 10 <= score (handleCollect (st w3) goodOrb 0 (st w4))
  /\ score (handleCollect (st w3) goodOrb 0 (st w4)) <= score (st w4) + 36.
Proof.
  apply (good_orb_between_10_and_36 hypot9 [w3; w2; w1; w0] w4 w3).
  - unfold w4.
    apply run_step with (snap := w3); [|left; reflexivity|reflexivity].
    exact short_game_start.
  - right. left. reflexivity.
  - reflexivity.
Defined.

(** A good orb raises the combo by one and the streak by 5, up to 100.  When
    the new combo, counted from the rendered one, is a multiple of 15 the
    slow-motion timer is set to 3000 ms, and when it is a multiple of 20 the
    magnet timer is set to 4000 ms and the notice reads MAGNET!; otherwise
    these timers are left alone. *)
Theorem good_orb_combo_buffs (snap : State) (o : Orb.t) (ch : Q) (s : State) :
  Orb.kind o = good ->
  combo (handleCollect snap o ch s) = combo s + 1
  /\ streak (handleCollect snap o ch s) = Z.min 100 (streak s + 5)
  /\ (Z.rem (combo snap + 1) 15 = 0 ->
      slowmo (handleCollect snap o ch s) = 3000%Q)
  /\ (Z.rem (combo snap + 1) 15 <> 0 ->
      slowmo (handleCollect snap o ch s) = slowmo s)
  /\ (Z.rem (combo snap + 1) 20 = 0 ->
      magnet (handleCollect snap o ch s) = 4000%Q
      /\ flash (handleCollect snap o ch s) = Some "MAGNET!"%string)
  /\ (Z.rem (combo snap + 1) 20 <> 0 ->
      magnet (handleCollect snap o ch s) = magnet s).
Proof.
  intro K. split; [|split; [|split; [|split; [|split]]]].
  - collect_cell K.
    repeat match goal with |- context [if ?c then _ else _] => destruct c end;
      reflexivity.
  - collect_cell K.
    repeat match goal with |- context [if ?c then _ else _] => destruct c end;
      reflexivity.
  - intro H. apply Z.eqb_eq in H. collect_cell K. rewrite H.
    destruct (Z.rem (combo snap + 1) 20 =? 0); reflexivity.
  - intro H. apply Z.eqb_neq in H. collect_cell K. rewrite H.
    destruct (combo snap + 1 =? 10), (Z.rem (combo snap + 1) 20 =? 0);
      reflexivity.
  - intro H. apply Z.eqb_eq in H. split; collect_cell K; rewrite H; reflexivity.
  - intro H. apply Z.eqb_neq in H. collect_cell K. rewrite H.
    destruct (combo snap + 1 =? 10), (Z.rem (combo snap + 1) 15 =? 0);
      reflexivity.
Qed.

Lemma good_orb_combo_buffs_witness :
  combo (handleCollect (st (after 14)) goodOrb 0 (st (after 14)))
  = combo (st (after 14)) + 1.
Proof.
  apply (good_orb_combo_buffs (st (after 14)) goodOrb 0 (st (after 14))).
  reflexivity.
Defined.

(** A power orb changes neither score, combo nor streak, and sets exactly
    one timer, chosen by its draw: slow motion to 3500 ms below 0.34, magnet
    to 5000 ms from 0.34 and below 0.67, score-double to 6000 ms from 0.67;
    the other two timers are left alone. *)
Theorem power_orb_sets_one_timer (snap : State) (o : Orb.t) (ch : Q)
    (s : State) :
  Orb.kind o = power ->
  (score (handleCollect snap o ch s) = score s
   /\ combo (handleCollect snap o ch s) = combo s
   /\ streak (handleCollect snap o ch s) = streak s)
  /\ ((ch < 0.34)%Q ->
      slowmo (handleCollect snap o ch s) = 3500%Q
      /\ magnet (handleCollect snap o ch s) = magnet s
      /\ x2 (handleCollect snap o ch s) = x2 s)
  /\ ((0.34 <= ch)%Q -> (ch < 0.67)%Q ->
      slowmo (handleCollect snap o ch s) = slowmo s
      /\ magnet (handleCollect snap o ch s) = 5000%Q
      /\ x2 (handleCollect snap o ch s) = x2 s)
  /\ ((0.67 <= ch)%Q ->
      slowmo (handleCollect snap o ch s) = slowmo s
      /\ magnet (handleCollect snap o ch s) = magnet s
      /\ x2 (handleCollect snap o ch s) = 6000%Q).
Proof.
  intro K. split; [|split; [|split]].
  - repeat split; collect_cell K;
      destruct (Qltb ch 0.34), (Qltb ch 0.67); reflexivity.
  - intro L. apply Qltb_lt in L.
    repeat split; collect_cell K; rewrite L; reflexivity.
  - intros G L. apply Qltb_ge in G. apply Qltb_lt in L.
    repeat split; collect_cell K; rewrite G, L; reflexivity.
  - intro G.
    assert (G1 : Qltb ch 0.34 = false) by (apply Qltb_ge; lra).
    assert (G2 : Qltb ch 0.67 = false) by (apply Qltb_ge; lra).
    repeat split; collect_cell K; rewrite G1, G2; reflexivity.
Qed.

Lemma power_orb_sets_one_timer_witness :
  score (handleCollect (st (after 5)) powerOrb 0.5 (st (after 5)))
  = score (st (after 5))
  /\ combo (handleCollect (st (after 5)) powerOrb 0.5 (st (after 5)))
     = combo (st (after 5))
  /\ streak (handleCollect (st (after 5)) powerOrb 0.5 (st (after 5)))
     = streak (st (after 5)).
Proof.
  apply (power_orb_sets_one_timer (st (after 5)) powerOrb 0.5 (st (after 5))).
  reflexivity.
Defined.

Lemma branch_badges (snap : State) (o : Orb.t) (ch : Q) (s : State) :
  exists t : State,
    handleCollect snap o ch s = awardBadges snap t /\ badges t = badges s.
Proof.
  unfold handleCollect. unfold seq at 1. eexists. split; [reflexivity|].
  destruct (Orb.kind o); unfold seq, when, toast, skip;
    repeat match goal with |- context [if ?c then _ else _] => destruct c end;
    reflexivity.
Qed.

(** One collection records at most one badge: the badge of the milestone
    that is the rendered score plus one, when there is such a milestone and
    the rendered badge list lacks it; otherwise the badge list is left as it
    is.  This holds for orbs of every kind. *)
Theorem one_badge_per_collection (snap : State) (o : Orb.t) (ch : Q)
    (s : State) :
  badges (handleCollect snap o ch s)
  = badges s
    ++ (if existsb (Z.eqb (score snap + 1)) milestones
           && negb (includes (badge (score snap + 1)) (badges snap))
        then [badge (score snap + 1)]
        else []).
Proof.
  destruct (branch_badges snap o ch s) as (t & -> & <-).
  unfold awardBadges, milestones. cbn [fold_left].
  rewrite !awardBadge_spec. cbn [existsb].
  remember (score snap) as n eqn:En.
  assert (C : n = 199 \/ n = 599 \/ n = 1199 \/ n = 2499 \/ n = 3999
              \/ n = 5999
              \/ (n <> 199 /\ n <> 599 /\ n <> 1199 /\ n <> 2499
                  /\ n <> 3999 /\ n <> 5999)) by lia.
  destruct C as [-> | [-> | [-> | [-> | [-> | [-> | N]]]]]];
    try (cbn [Z.eqb Z.add Z.sub Z.opp Z.pos_sub Pos.eqb Pos.add Pos.succ
              Pos.pred_double Z.double Z.succ_double Z.pred_double
              Pos.add_carry orb andb];
         destruct (includes _ (badges snap)); cbn [negb andb badges setBadges];
         rewrite ?app_nil_r; reflexivity).
  destruct N as (N1 & N2 & N3 & N4 & N5 & N6).
  replace (n =? 200 - 1) with false by (symmetry; apply Z.eqb_neq; lia).
  replace (n =? 600 - 1) with false by (symmetry; apply Z.eqb_neq; lia).
  replace (n =? 1200 - 1) with false by (symmetry; apply Z.eqb_neq; lia).
  replace (n =? 2500 - 1) with false by (symmetry; apply Z.eqb_neq; lia).
  replace (n =? 4000 - 1) with false by (symmetry; apply Z.eqb_neq; lia).
  replace (n =? 6000 - 1) with false by (symmetry; apply Z.eqb_neq; lia).
  replace (n + 1 =? 200) with false by (symmetry; apply Z.eqb_neq; lia).
  replace (n + 1 =? 600) with false by (symmetry; apply Z.eqb_neq; lia).
  replace (n + 1 =? 1200) with false by (symmetry; apply Z.eqb_neq; lia).
  replace (n + 1 =? 2500) with false by (symmetry; apply Z.eqb_neq; lia).
  replace (n + 1 =? 4000) with false by (symmetry; apply Z.eqb_neq; lia).
  replace (n + 1 =? 6000) with false by (symmetry; apply Z.eqb_neq; lia).
  cbn [orb andb]. rewrite app_nil_r. reflexivity.
Qed.

(** ** Streak and multiplier *)

(** With the multiplier at least 1, a decay tick raises neither the streak
    nor the multiplier, keeps the streak at or above 0 and the multiplier at
    or above 1, and takes exactly 2 off a streak of 2 or more. *)
Theorem decay_lowers (s : State) :
  (1 <= mult s)%Q ->
  streak (decay s) <= Z.max 0 (streak s)
  /\ 0 <= streak (decay s)
  /\ (2 <= streak s -> streak (decay s) = streak s - 2)
  /\ (mult (decay s) <= mult s)%Q
  /\ (1 <= mult (decay s))%Q
  /\ (score (decay s) = score s /\ combo (decay s) = combo s).
Proof.
  intro M. unfold decay, seq. cbn [streak mult score combo setStreak setMult].
  repeat split; try lia.
  - apply clamp_le; [exact M | lra].
  - apply clamp_bounds. discriminate.
Qed.

Lemma decay_lowers_witness :
  (mult (decay (st (after 14))) <= mult (st (after 14)))%Q.
Proof.
  apply (decay_lowers (st (after 14))). vm_compute. discriminate.
Defined.

(** For a rendered streak between 0 and 100 the streak effect sets the
    multiplier to 1 plus 0.2 for every full 25 of streak: neither the
    rounding to one decimal nor the clamp to [1, 4] changes that value. *)
Theorem streakEffect_steps (snap s : State) :
  0 <= streak snap <= 100 ->
  (mult (streakEffect snap s) == 1 + 0.2 * inject_Z (streak snap / 25))%Q
  /\ (streak snap < 25 -> (mult (streakEffect snap s) == 1)%Q)
  /\ (streak snap = 100 -> (mult (streakEffect snap s) == 1.8)%Q).
Proof.
  intro H. unfold streakEffect. cbn [mult setMult].
  change (inject_Z (streak snap) / 25)%Q
    with (inject_Z (streak snap) / inject_Z 25)%Q.
  rewrite <- (Zdiv_Qdiv (streak snap) 25).
  assert (K : 0 <= streak snap / 25 <= 4).
  { split; [apply Z.div_pos; lia | apply Z.div_le_upper_bound; lia]. }
  assert (L : streak snap < 25 -> streak snap / 25 = 0).
  { intro L. apply Z.div_small. lia. }
  assert (U : streak snap = 100 -> streak snap / 25 = 4).
  { intro U. rewrite U. reflexivity. }
  split; [|split].
  - assert (C : streak snap / 25 = 0 \/ streak snap / 25 = 1
                \/ streak snap / 25 = 2 \/ streak snap / 25 = 3
                \/ streak snap / 25 = 4) by lia.
    destruct C as [-> | [-> | [-> | [-> | ->]]]]; reflexivity.
  - intro A. rewrite (L A). reflexivity.
  - intro A. rewrite (U A). reflexivity.
Qed.

Lemma streakEffect_steps_witness :
  (mult (streakEffect (st (after 14)) (st (after 14)))
   == 1 + 0.2 * inject_Z (streak (st (after 14)) / 25))%Q.
Proof.
  apply (streakEffect_steps (st (after 14)) (st (after 14))).
  vm_compute. split; discriminate.
Defined.

(** ** Invariants of all histories *)

Lemma timers_tallies (snap : State) (dt : Q) (s : State) :
  tallies s -> tallies (timers snap dt s).
Proof.
  intros (A & B & C & D & E). unfold timers, seq, when, skip, tallies.
  destruct (Qltb 0 (slowmo snap)), (Qltb 0 (magnet snap)),
    (Qltb 0 (x2 snap)); cbn; repeat split; try assumption;
    apply Q.le_max_l.
Qed.

Lemma handleCollect_tallies (snap : State) (o : Orb.t) (ch : Q) (s : State) :
  0 <= inc snap -> tallies s -> tallies (handleCollect snap o ch s).
Proof.
  intros I (A & B & C & D & E). unfold handleCollect. unfold seq at 1.
  apply awardBadges_keeps; [intros f t T; exact T|].
  unfold tallies. remember (inc snap) as n eqn:En. clear En.
  destruct (Orb.kind o); unfold seq, when, toast, skip;
    repeat match goal with |- context [if ?c then _ else _] => destruct c end;
    cbn; repeat split; try assumption; try lia; discriminate.
Qed.

Lemma endGame_tallies (snap s : State) : tallies s -> tallies (endGame snap s).
Proof.
  intros (A & B & C & D & E). unfold tallies. cbn.
  repeat split; try assumption; lia.
Qed.

Lemma run_tallies (hypot : Q -> Q -> Q) (h : list World) :
  run hypot h -> Forall (fun w => tallies (st w)) h.
Proof.
  intro R. pose proof (run_bounded hypot h R) as B. revert B.
  induction R as [raw | h w snap ev R IH I E]; intro B.
  - constructor; [|constructor]. unfold tallies. cbn.
    repeat split; try lia; discriminate.
  - inversion B as [|? ? _ B']; subst. specialize (IH B').
    constructor; [|exact IH].
    assert (Tw : tallies (st w)) by (inversion IH; assumption).
    assert (Bs : bounded (st snap)).
    { rewrite Forall_forall in B'. apply B'. exact I. }
    destruct ev; cbn [apply onState onGame st]; try exact Tw.
    + unfold tallies. cbn. repeat split; try lia; discriminate.
    + unfold tick. destruct (arena f) as [rect|]; [|exact Tw].
      apply collide_keeps.
      * intros o ch s. apply handleCollect_tallies.
        pose proof (inc_bounds _ Bs). lia.
      * intros s. apply endGame_tallies.
      * cbn [fst]. apply timers_tallies. exact Tw.
    + unfold onMove. cbn [fst snd].
      destruct (dragging (refs w)); exact Tw.
    + unfold shareScore.
      destruct (share nav); [|destruct (clipboard nav) as [[|]|]]; exact Tw.
Qed.

(** In every reachable state the score and the combo are not negative and
    no buff timer is negative. *)
Theorem tallies_hold (hypot : Q -> Q -> Q) (w : World) :
  reachable hypot w ->
  0 <= score (st w) /\ 0 <= combo (st w)
  /\ (0 <= slowmo (st w))%Q /\ (0 <= magnet (st w))%Q /\ (0 <= x2 (st w))%Q.
Proof.
  intros [h R]. pose proof (run_tallies hypot _ R) as F.
  inversion F; assumption.
Qed.

Lemma tallies_hold_witness :
  0 <= score (st (after 14)) /\ 0 <= combo (st (after 14))
  /\ (0 <= slowmo (st (after 14)))%Q /\ (0 <= magnet (st (after 14)))%Q
  /\ (0 <= x2 (st (after 14)))%Q.
Proof.
  apply (tallies_hold hypot9 (after 14)). apply after_reachable.
Defined.

(** In every reachable world the live orbs carry distinct identifiers, all
    smaller than the identifier the next spawn will get. *)
Theorem identifiers_distinct (hypot : Q -> Q -> Q) (w : World) :
  reachable hypot w ->
  NoDup (map Orb.id (orbsRef (refs w)))
  /\ Forall (fun o => Orb.id o < idRef (refs w)) (orbsRef (refs w)).
Proof.
  intros [h R]. pose proof (run_ids hypot _ R) as F.
  inversion F; assumption.
Qed.

Lemma identifiers_distinct_witness :
  NoDup (map Orb.id (orbsRef (refs w5)))
  /\ Forall (fun o => Orb.id o < idRef (refs w5)) (orbsRef (refs w5)).
Proof.
  apply (identifiers_distinct hypot9 w5). eexists. exact short_game_run.
Defined.

(** Only starting a game and animation frames touch the run itself: every
    other event leaves the running flag, the score, the combo, the badges,
    the live orbs and the next identifier as they are. *)
Theorem quiet_events (hypot : Q -> Q -> Q) (ev : Event) (snap : State)
    (w : World) :
  ev <> Start ->
  (forall f, ev <> AnimationFrame f) ->
  running (st (apply hypot ev snap w)) = running (st w)
  /\ score (st (apply hypot ev snap w)) = score (st w)
  /\ combo (st (apply hypot ev snap w)) = combo (st w)
  /\ badges (st (apply hypot ev snap w)) = badges (st w)
  /\ orbsRef (refs (apply hypot ev snap w)) = orbsRef (refs w)
  /\ idRef (refs (apply hypot ev snap w)) = idRef (refs w).
Proof.
  intros NS NF. destruct ev; try congruence;
    try (exfalso; exact (NF _ eq_refl));
    try (repeat split; reflexivity).
  - cbn [apply]. unfold onGame, onMove. cbn [fst snd].
    destruct (dragging (refs w)); repeat split; reflexivity.
  - cbn [apply]. unfold onState, shareScore.
    destruct (share nav); [|destruct (clipboard nav) as [[|]|]];
      repeat split; reflexivity.
Qed.

Lemma quiet_events_witness :
  running (st (apply hypot9 DecayInterval (st w4) w4)) = running (st w4)
  /\ score (st (apply hypot9 DecayInterval (st w4) w4)) = score (st w4)
  /\ combo (st (apply hypot9 DecayInterval (st w4) w4)) = combo (st w4)
  /\ badges (st (apply hypot9 DecayInterval (st w4) w4)) = badges (st w4)
  /\ orbsRef (refs (apply hypot9 DecayInterval (st w4) w4))
     = orbsRef (refs w4)
  /\ idRef (refs (apply hypot9 DecayInterval (st w4) w4)) = idRef (refs w4).
Proof.
  apply (quiet_events hypot9 DecayInterval (st w4) w4); discriminate.
Defined.

(** ** Spawning *)

Lemma edge_range (e : Q) :
  draw e -> 0 <= Qfloor (rand 0 4 e) <= 3.
Proof.
  intros [L U]. unfold rand.
  pose proof (Qfloor_le (0 + e * (4 - 0))) as F.
  pose proof (Qlt_floor (0 + e * (4 - 0))) as G.
  split.
  - assert (A : (inject_Z 0 < inject_Z (Qfloor (0 + e * (4 - 0)) + 1))%Q)
      by (change (inject_Z 0) with 0%Q; lra).
    rewrite <- Zlt_Qlt in A. lia.
  - assert (A : (inject_Z (Qfloor (0 + e * (4 - 0))) < inject_Z 4)%Q)
      by (change (inject_Z 4) with 4%Q; lra).
    rewrite <- Zlt_Qlt in A. lia.
Qed.

(** With draws in [0, 1), a spawn appends one orb and leaves the others as
    they are; the orb gets the next identifier, which goes up by one; it
    lies in the unit square on one of the four edges of the arena; it is
    born at the reading of the clock.  Without an arena nothing changes. *)
Theorem spawnOrb_places_on_an_edge (hypot : Q -> Q -> Q) (snap : State)
    (rect : Rect) (d : SpawnDraws) (now : Q) (r : Refs) :
  draw (d_edge d) -> draw (d_x d) -> draw (d_y d) ->
  (exists o : Orb.t,
     orbsRef (spawnOrb hypot snap (Some rect) d now r) = orbsRef r ++ [o]
     /\ Orb.id o = idRef r
     /\ idRef (spawnOrb hypot snap (Some rect) d now r) = idRef r + 1
     /\ inUnit (Orb.pos o)
     /\ (V.y (Orb.pos o) = 0%Q \/ V.y (Orb.pos o) = 1%Q
         \/ V.x (Orb.pos o) = 0%Q \/ V.x (Orb.pos o) = 1%Q)
     /\ Orb.bornAt o = now)
  /\ spawnOrb hypot snap None d now r = r.
Proof.
  intros E [X0 X1] [Y0 Y1]. split; [|reflexivity].
  unfold spawnOrb. eexists. split; [reflexivity|].
  cbn [Orb.id Orb.pos Orb.bornAt idRef V.x V.y].
  split; [reflexivity|]. split; [reflexivity|].
  pose proof (edge_range _ E) as R.
  remember (Qfloor (rand 0 4 (d_edge d))) as e eqn:Ee. clear Ee.
  assert (C : e = 0 \/ e = 1 \/ e = 2 \/ e = 3) by lia.
  unfold inUnit. cbn [V.x V.y]. unfold rand.
  destruct C as [-> | [-> | [-> | ->]]]; cbn [Z.eqb Pos.eqb];
    (split; [split; split; lra|]); split; tauto.
Qed.

Lemma spawnOrb_places_on_an_edge_witness :
  exists o : Orb.t,
    orbsRef (spawnOrb hypot9 (st w2) (Some arena400) (topCentre 0.9) 5016
               (refs w2)) = orbsRef (refs w2) ++ [o]
    /\ Orb.id o = idRef (refs w2)
    /\ idRef (spawnOrb hypot9 (st w2) (Some arena400) (topCentre 0.9) 5016
                (refs w2)) = idRef (refs w2) + 1
    /\ inUnit (Orb.pos o)
    /\ (V.y (Orb.pos o) = 0%Q \/ V.y (Orb.pos o) = 1%Q
        \/ V.x (Orb.pos o) = 0%Q \/ V.x (Orb.pos o) = 1%Q)
    /\ Orb.bornAt o = 5016%Q.
Proof.
  apply (spawnOrb_places_on_an_edge hypot9 (st w2) arena400 (topCentre 0.9)
           5016 (refs w2)); split; first [discriminate | reflexivity].
Defined.

(** With draws in [0, 1), a spawned orb has a radius between 10 and 16 when
    it is good, between 12 and 18 when it is a hazard and between 14 and 20
    when it is a power-up, and a time-to-live between 5000 and 10000 ms,
    the bounds included. *)
Theorem spawnOrb_sizes (hypot : Q -> Q -> Q) (snap : State) (rect : Rect)
    (d : SpawnDraws) (now : Q) (r : Refs) :
  draw (d_radius d) -> draw (d_ttl d) ->
  exists o : Orb.t,
    orbsRef (spawnOrb hypot snap (Some rect) d now r) = orbsRef r ++ [o]
    /\ (Orb.kind o = good -> (10 <= Orb.radius o)%Q /\ (Orb.radius o <= 16)%Q)
    /\ (Orb.kind o = bad -> (12 <= Orb.radius o)%Q /\ (Orb.radius o <= 18)%Q)
    /\ (Orb.kind o = power ->
        (14 <= Orb.radius o)%Q /\ (Orb.radius o <= 20)%Q)
    /\ (5000 <= Orb.ttl o)%Q /\ (Orb.ttl o <= 10000)%Q.
Proof.
  intros [R0 R1] [T0 T1]. unfold spawnOrb. eexists. split; [reflexivity|].
  cbn [Orb.kind Orb.radius Orb.ttl]. unfold rand.
  destruct (spawnKind (difficulty (score snap)) (d_power d) (d_bad d));
    repeat split; try discriminate; lra.
Qed.

Lemma spawnOrb_sizes_witness :
  exists o : Orb.t,
    orbsRef (spawnOrb hypot9 (st w2) (Some arena400) (topCentre 0.9) 5016
               (refs w2)) = orbsRef (refs w2) ++ [o]
    /\ (Orb.kind o = good -> (10 <= Orb.radius o)%Q /\ (Orb.radius o <= 16)%Q)
    /\ (Orb.kind o = bad -> (12 <= Orb.radius o)%Q /\ (Orb.radius o <= 18)%Q)
    /\ (Orb.kind o = power ->
        (14 <= Orb.radius o)%Q /\ (Orb.radius o <= 20)%Q)
    /\ (5000 <= Orb.ttl o)%Q /\ (Orb.ttl o <= 10000)%Q.
Proof.
  apply (spawnOrb_sizes hypot9 (st w2) arena400 (topCentre 0.9) 5016
           (refs w2)); split; first [discriminate | reflexivity].
Defined.

(** ** Motion *)

Lemma moveOrb_pos (hypot : Q -> Q -> Q) (snap : State) (rect : Rect) (edt : Q)
    (o : Orb.t) :
  exists vx vy : Q,
    Orb.pos (moveOrb hypot snap rect edt o)
    = V.mk (clamp (V.x (Orb.pos o) + vx) 0 1) (clamp (V.y (Orb.pos o) + vy) 0 1).
Proof.
  unfold moveOrb. cbn [Orb.pos]. eexists. eexists. reflexivity.
Qed.

Lemma moveOrb_in_unit (hypot : Q -> Q -> Q) (snap : State) (rect : Rect)
    (edt : Q) (o : Orb.t) :
  inUnit (Orb.pos (moveOrb hypot snap rect edt o)).
Proof.
  destruct (moveOrb_pos hypot snap rect edt o) as (vx & vy & ->).
  split; apply clamp_unit.
Qed.

Lemma moveOrb_vel (hypot : Q -> Q -> Q) (snap : State) (rect : Rect) (edt : Q)
    (o : Orb.t) :
  let p := Orb.pos (moveOrb hypot snap rect edt o) in
  let hx := Qeq_bool (V.x p) 0 || Qeq_bool (V.x p) 1 in
  let hy := Qeq_bool (V.y p) 0 || Qeq_bool (V.y p) 1 in
  Orb.vel (moveOrb hypot snap rect edt o)
  = if hx || hy
    then V.mk (V.x (Orb.vel o) * (if hx then -1 else 1))
              (V.y (Orb.vel o) * (if hy then -1 else 1))
    else Orb.vel o.
Proof.
  reflexivity.
Qed.

Lemma at_wall (v : Q) :
  Qeq_bool v 0 || Qeq_bool v 1 = true <-> (v == 0)%Q \/ (v == 1)%Q.
Proof.
  rewrite orb_true_iff, !Qeq_bool_iff. reflexivity.
Qed.

(** In a measured arena a moved orb lies in the unit square.  Its velocity
    is reversed along an axis exactly when its new position is on a wall of
    that axis (coordinate 0 or 1) and is unchanged along the axis otherwise.
    Kind, radius and identifier are kept, and the rotation phase grows by
    0.03 for a hazard and by 0.02 for the others. *)
Theorem moveOrb_bounces (hypot : Q -> Q -> Q) (snap : State) (rect : Rect)
    (edt : Q) (o : Orb.t) :
  measured rect ->
  let o' := moveOrb hypot snap rect edt o in
  inUnit (Orb.pos o')
  /\ (((V.x (Orb.pos o') == 0)%Q \/ (V.x (Orb.pos o') == 1)%Q) ->
      (V.x (Orb.vel o') == - V.x (Orb.vel o))%Q)
  /\ (~ ((V.x (Orb.pos o') == 0)%Q \/ (V.x (Orb.pos o') == 1)%Q) ->
      (V.x (Orb.vel o') == V.x (Orb.vel o))%Q)
  /\ (((V.y (Orb.pos o') == 0)%Q \/ (V.y (Orb.pos o') == 1)%Q) ->
      (V.y (Orb.vel o') == - V.y (Orb.vel o))%Q)
  /\ (~ ((V.y (Orb.pos o') == 0)%Q \/ (V.y (Orb.pos o') == 1)%Q) ->
      (V.y (Orb.vel o') == V.y (Orb.vel o))%Q)
  /\ Orb.kind o' = Orb.kind o
  /\ Orb.radius o' = Orb.radius o
  /\ Orb.id o' = Orb.id o
  /\ (Orb.spin o'
      == Orb.spin o + (if Kind_eqb (Orb.kind o) bad then 0.03 else 0.02))%Q.
Proof.
  intros _ o'. subst o'.
  split; [apply moveOrb_in_unit|].
  rewrite (moveOrb_vel hypot snap rect edt o). cbv zeta.
  set (p := Orb.pos (moveOrb hypot snap rect edt o)).
  pose proof (at_wall (V.x p)) as WX. pose proof (at_wall (V.y p)) as WY.
  destruct (Qeq_bool (V.x p) 0 || Qeq_bool (V.x p) 1);
    destruct (Qeq_bool (V.y p) 0 || Qeq_bool (V.y p) 1);
    cbn [orb V.x V.y];
    (split; [intro A; apply WX in A; try discriminate A; ring|]);
    (split; [intro N; try (exfalso; apply N; apply WX; reflexivity); ring|]);
    (split; [intro A; apply WY in A; try discriminate A; ring|]);
    (split; [intro N; try (exfalso; apply N; apply WY; reflexivity); ring|]);
    repeat split; reflexivity.
Qed.

Lemma moveOrb_bounces_witness :
  inUnit (Orb.pos (moveOrb hypot9 (st w4) arena400 0.016 goodOrb)).
Proof.
  apply (moveOrb_bounces hypot9 (st w4) arena400 0.016 goodOrb).
  split; reflexivity.
Defined.

(** ** Whole frames *)









(** After a frame with a measured arena every live orb lies in the unit
    square. *)
Theorem frame_keeps_orbs_inside (hypot : Q -> Q -> Q) (snap : State)
    (f : Frame) (w : State * Refs) (rect : Rect) :
  arena f = Some rect ->
  measured rect ->
  Forall (fun o => inUnit (Orb.pos o))
         (orbsRef (snd (fst (tick hypot snap f w)))).
Proof.
  intros A M. unfold tick. rewrite A. apply Forall_forall. intros x I.
  apply collide_orbs_subset in I. unfold movePhase in I. cbn in I.
  apply moveOrbs_In in I. destruct I as (j & o & _ & -> & _).
  apply moveOrb_in_unit.
Qed.

Lemma frame_keeps_orbs_inside_witness :
  Forall (fun o => inUnit (Orb.pos o))
         (orbsRef (snd (fst (tick hypot9 (st w2) frameB (st w2, refs w2))))).
Proof.
  apply (frame_keeps_orbs_inside hypot9 (st w2) frameB (st w2, refs w2)
           arena400).
  - reflexivity.
  - split; reflexivity.
Defined.

(** The first frame after a start does nothing but record its timestamp:
    its time step is 0, so whatever is drawn nothing is spawned, the list of
    orbs stays empty, score, combo, streak and badges stay reset, the timers
    stay at 0, the game stays running, and the next frame is requested. *)
Theorem first_frame_is_still (hypot : Q -> Q -> Q) (snap : State) (f : Frame)
    (g : State * Refs) (rect : Rect) :
  arena f = Some rect ->
  (0 <= spawnDraw f)%Q ->
  snd (tick hypot snap f (startGame g)) = true
  /\ orbsRef (snd (fst (tick hypot snap f (startGame g)))) = []
  /\ idRef (snd (fst (tick hypot snap f (startGame g)))) = 1
  /\ lastTs (snd (fst (tick hypot snap f (startGame g)))) = Some (ts f)
  /\ score (fst (fst (tick hypot snap f (startGame g)))) = 0
  /\ combo (fst (fst (tick hypot snap f (startGame g)))) = 0
  /\ streak (fst (fst (tick hypot snap f (startGame g)))) = 0
  /\ badges (fst (fst (tick hypot snap f (startGame g)))) = []
  /\ running (fst (fst (tick hypot snap f (startGame g)))) = true
  /\ paused (fst (fst (tick hypot snap f (startGame g)))) = false
  /\ (slowmo (fst (fst (tick hypot snap f (startGame g)))) == 0)%Q
  /\ (magnet (fst (fst (tick hypot snap f (startGame g)))) == 0)%Q
  /\ (x2 (fst (fst (tick hypot snap f (startGame g)))) == 0)%Q.
Proof.
  intros A H. unfold tick. rewrite A.
  set (dt := frameDt f (snd (startGame g))).
  assert (D : (dt == 0)%Q).
  { unfold dt, frameDt, startGame. cbn [snd lastTs]. unfold Qdiv. ring. }
  assert (S : spawnPhase hypot snap f dt
                (setLastTs (Some (ts f)) (snd (startGame g)))
              = setLastTs (Some (ts f)) (snd (startGame g))).
  { unfold spawnPhase.
    replace (Qltb (spawnDraw f) (spawnRate (difficulty (score snap)) * dt))
      with false; [reflexivity|].
    symmetry. apply Qltb_ge. rewrite D, Qmult_0_r. exact H. }
  rewrite S. unfold movePhase, startGame, setLastTs, setOrbs.
  cbn [snd fst orbsRef idRef lastTs dragging moveOrbs collide].
  assert (Z0 : (Qmax 0 (0 - dt * 1000) == 0)%Q).
  { apply Q.max_l. rewrite D. discriminate. }
  unfold timers, seq, when, skip.
  destruct (Qltb 0 (slowmo snap)), (Qltb 0 (magnet snap)),
    (Qltb 0 (x2 snap));
    cbn; repeat split; try reflexivity; exact Z0.
Qed.

Lemma first_frame_is_still_witness :
  snd (tick hypot9 (st w1) frameA (startGame (st w0, refs w0))) = true.
Proof.
  apply (first_frame_is_still hypot9 (st w1) frameA (st w0, refs w0) arena400).
  - reflexivity.
  - discriminate.
Defined.

(** ** Timers, score and decay over time *)

(** The timers block of a frame with a time step that is not negative: a
    timer that the frame's render shows active loses [dt * 1000] ms, stopping
    at 0; one that it shows inactive is left alone; no timer grows or
    becomes negative; nothing else changes. *)
Theorem timers_run_down (snap : State) (dt : Q) (s : State) :
  (0 <= dt)%Q ->
  (0 <= x2 s)%Q ->
  ((0 < x2 snap)%Q -> (x2 (timers snap dt s) == Qmax 0 (x2 s - dt * 1000))%Q)
  /\ ((x2 snap <= 0)%Q -> x2 (timers snap dt s) = x2 s)
  /\ ((0 < x2 snap)%Q -> (x2 s <= dt * 1000)%Q -> (x2 (timers snap dt s) == 0)%Q)
  /\ (0 <= x2 (timers snap dt s))%Q
  /\ (x2 (timers snap dt s) <= x2 s)%Q
  /\ score (timers snap dt s) = score s
  /\ combo (timers snap dt s) = combo s
  /\ streak (timers snap dt s) = streak s.
Proof.
  intros D X. unfold timers, seq, when, skip.
  assert (M : (0 <= Qmax 0 (x2 s - dt * 1000))%Q) by apply Q.le_max_l.
  assert (N : (Qmax 0 (x2 s - dt * 1000) <= x2 s)%Q)
    by (apply Q.max_lub; lra).
  destruct (Qltb 0 (x2 snap)) eqn:E.
  - apply Qltb_lt in E.
    destruct (Qltb 0 (slowmo snap)), (Qltb 0 (magnet snap)); cbn;
      (split; [intros _; reflexivity|]);
      (split; [intro F; lra|]);
      (split; [intros _ F; apply Q.max_l; lra|]);
      repeat split; assumption.
  - apply Qltb_ge in E.
    destruct (Qltb 0 (slowmo snap)), (Qltb 0 (magnet snap)); cbn;
      (split; [intro F; lra|]);
      (split; [intros _; reflexivity|]);
      (split; [intro F; lra|]);
      repeat split; first [assumption | lra].
Qed.

Lemma timers_run_down_witness :
  (x2 (timers (st (after 14)) 0.24 (st (after 14))) <= x2 (st (after 14)))%Q.
Proof.
  apply (timers_run_down (st (after 14)) 0.24 (st (after 14)));
    vm_compute; discriminate.
Defined.

(** Within a history the score never goes down except by starting a new
    game. *)
Theorem score_only_grows (hypot : Q -> Q -> Q) (h : list World)
    (w snap : World) (ev : Event) :
  run hypot (w :: h) ->
  In snap (w :: h) ->
  ev <> Start ->
  score (st w) <= score (st (apply hypot ev (st snap) w)).
Proof.
  intros R I NS.
  pose proof (run_bounded hypot _ R) as F. rewrite Forall_forall in F.
  pose proof (inc_bounds _ (F snap I)) as B.
  destruct ev; try congruence;
    try (cbn [apply]; unfold onState, onGame; cbn; lia).
  - cbn [apply]. unfold onGame. cbn [st fst].
    refine (tick_keeps hypot (fun s => score (st w) <= score s) (st snap) f
              _ _ _ _ _ (st w, refs w) _);
      [intros g s L; exact L | intros g s L; exact L | intros g s L; exact L
      | | | cbn [fst]; lia].
    + intros o ch s L. unfold handleCollect. unfold seq at 1.
      rewrite (awardBadges_frame _ score) by reflexivity.
      remember (inc (st snap)) as n eqn:En. clear En.
      destruct (Orb.kind o); unfold seq, when, toast, skip;
        repeat match goal with
               | |- context [if ?c then _ else _] => destruct c
               end; cbn; lia.
    + intros s L. exact L.
  - cbn [apply]. unfold onGame, onMove. cbn [fst snd st].
    destruct (dragging (refs w)); cbn; lia.
  - cbn [apply]. unfold onState. cbn [st]. rewrite shareScore_score. lia.
Qed.

Lemma score_only_grows_witness :
  score (st w4) <= score (st (apply hypot9 (AnimationFrame frameC) (st w4) w4)).
Proof.
  apply (score_only_grows hypot9 [w3; w2; w1; w0] w4 w4
           (AnimationFrame frameC)).
  - unfold w4.
    apply run_step with (snap := w3); [|left; reflexivity|reflexivity].
    exact short_game_start.
  - left. reflexivity.
  - discriminate.
Defined.

Lemma streakEffect_value (snap s : State) :
  0 <= streak snap <= 100 ->
  (mult (streakEffect snap s) == 1 + 0.2 * inject_Z (streak snap / 25))%Q.
Proof.
  intro H. unfold streakEffect. cbn [mult setMult].
  change (inject_Z (streak snap) / 25)%Q
    with (inject_Z (streak snap) / inject_Z 25)%Q.
  rewrite <- (Zdiv_Qdiv (streak snap) 25).
  assert (K : 0 <= streak snap / 25 <= 4).
  { split; [apply Z.div_pos; lia | apply Z.div_le_upper_bound; lia]. }
  assert (C : streak snap / 25 = 0 \/ streak snap / 25 = 1
              \/ streak snap / 25 = 2 \/ streak snap / 25 = 3
              \/ streak snap / 25 = 4) by lia.
  destruct C as [-> | [-> | [-> | [-> | ->]]]]; reflexivity.
Qed.

(** One tick as the renders show it, from a streak in [0, 100]: 2 off the
    streak, stopping at 0; the multiplier is the streak-derived one of the
    new streak whenever the streak changed, and stays 1 when the streak was
    already 0 and the multiplier 1. *)
Lemma decayTick_step (s : State) :
  0 <= streak s <= 100 ->
  streak (decayTick s) = Z.max 0 (streak s - 2)
  /\ (0 < streak s \/ (mult s == 1)%Q ->
      (mult (decayTick s)
       == 1 + 0.2 * inject_Z (streak (decayTick s) / 25))%Q).
Proof.
  intro H. unfold decayTick. cbv zeta.
  assert (D : streak (decay s) = Z.max 0 (streak s - 2)) by reflexivity.
  destruct (streak (decay s) =? streak s) eqn:E.
  - apply Z.eqb_eq in E. split; [exact D|].
    assert (Z0 : streak s = 0) by lia.
    intros [P | M]; [lia|].
    rewrite E, Z0. change (mult (decay s)) with (clamp (mult s * 0.995) 1 5).
    rewrite clamp_below; [reflexivity | lra | discriminate].
  - split; [exact D|]. intros _.
    apply (streakEffect_value (decay s) (decay s)). rewrite D. lia.
Qed.

(** From a streak in [0, 100], [n] decay ticks in a row, each followed by
    the streak effect when it changed the streak, leave the streak at
    [max(0, streak - 2 n)]; and after at least one tick, when the streak was
    positive or the multiplier 1 to begin with, the multiplier is the
    streak-derived one of that streak, [1 + 0.2 * floor(streak / 25)]: the
    factor 0.995 of the tick never outlives the effect. *)
Theorem decay_over_time (n : nat) (s : State) :
  0 <= streak s <= 100 ->
  streak (Nat.iter n decayTick s) = Z.max 0 (streak s - 2 * Z.of_nat n)
  /\ ((0 < n)%nat ->
      0 < streak s \/ (mult s == 1)%Q ->
      (mult (Nat.iter n decayTick s)
       == 1 + 0.2 * inject_Z (streak (Nat.iter n decayTick s) / 25))%Q).
Proof.
  intro H. induction n as [|n [IHs IHm]].
  - split; [simpl; lia | intro L; inversion L].
  - assert (B : 0 <= streak (Nat.iter n decayTick s) <= 100)
      by (rewrite IHs; lia).
    destruct (decayTick_step _ B) as [Ts Tm].
    change (Nat.iter (S n) decayTick s)
      with (decayTick (Nat.iter n decayTick s)).
    split; [rewrite Ts, IHs; lia|].
    intros _ C. apply Tm.
    destruct n as [|n].
    + exact C.
    + destruct (Z_lt_le_dec 0 (streak (Nat.iter (S n) decayTick s)))
        as [P | P]; [left; exact P|].
      right. rewrite (IHm (Nat.lt_0_succ n) C).
      replace (streak (Nat.iter (S n) decayTick s)) with 0 by lia.
      reflexivity.
Qed.

Lemma decay_over_time_witness :
  streak (Nat.iter 3 decayTick (st heated))
  = Z.max 0 (streak (st heated) - 2 * Z.of_nat 3)
  /\ ((0 < 3)%nat ->
      0 < streak (st heated) \/ (mult (st heated) == 1)%Q ->
      (mult (Nat.iter 3 decayTick (st heated))
       == 1 + 0.2 * inject_Z (streak (Nat.iter 3 decayTick (st heated)) / 25))%Q).
Proof.
  apply (decay_over_time 3 (st heated)). vm_compute. split; discriminate.
Defined.

(** ** What the magnet and the pause leave alone *)

(** The magnet never acts on a hazard: a hazard moves the same way whatever
    the magnet timer is.  And when the magnet timer is not active no orb is
    pulled: [Math.hypot] is not consulted by the move at all. *)
Theorem magnet_spares_hazards (hypot hypot' : Q -> Q -> Q) (snap : State)
    (rect : Rect) (edt : Q) (o : Orb.t) (g : Q -> Q) :
  (Orb.kind o = bad ->
   moveOrb hypot snap rect edt o
   = moveOrb hypot' (setMagnet g snap) rect edt o)
  /\ ((magnet snap <= 0)%Q ->
      moveOrb hypot snap rect edt o = moveOrb hypot' snap rect edt o).
Proof.
  split.
  - intro K. unfold moveOrb. rewrite K. cbn [Kind_eqb negb].
    rewrite !andb_false_r. reflexivity.
  - intro M. apply Qltb_ge in M. unfold moveOrb. rewrite M. reflexivity.
Qed.

(** While the game is running and paused, no event that the paused render
    offers changes the run: the running flag, score, combo, streak, the
    three timers, the badges and the live orbs all stay as they are. *)
Theorem paused_is_frozen (hypot : Q -> Q -> Q) (ev : Event) (w : World) :
  running (st w) = true ->
  paused (st w) = true ->
  enabled ev (st w) = true ->
  running (st (apply hypot ev (st w) w)) = true
  /\ score (st (apply hypot ev (st w) w)) = score (st w)
  /\ combo (st (apply hypot ev (st w) w)) = combo (st w)
  /\ streak (st (apply hypot ev (st w) w)) = streak (st w)
  /\ slowmo (st (apply hypot ev (st w) w)) = slowmo (st w)
  /\ magnet (st (apply hypot ev (st w) w)) = magnet (st w)
  /\ x2 (st (apply hypot ev (st w) w)) = x2 (st w)
  /\ badges (st (apply hypot ev (st w) w)) = badges (st w)
  /\ orbsRef (refs (apply hypot ev (st w) w)) = orbsRef (refs w).
Proof.
  intros R P E.
  destruct ev; cbn [enabled] in E; rewrite ?R, ?P in E; try discriminate E;
    cbn [apply]; unfold onState, onGame; cbn [st refs fst snd];
    try (rewrite <- R; repeat split; reflexivity).
  unfold onMove. cbn [fst snd].
  destruct (dragging (refs w)); rewrite <- R; repeat split; reflexivity.
Qed.

Lemma paused_is_frozen_witness :
  let w := apply hypot9 TogglePause (st w4) w4 in
  running (st (apply hypot9 StreakEffect (st w) w)) = true
  /\ score (st (apply hypot9 StreakEffect (st w) w)) = score (st w)
  /\ combo (st (apply hypot9 StreakEffect (st w) w)) = combo (st w)
  /\ streak (st (apply hypot9 StreakEffect (st w) w)) = streak (st w)
  /\ slowmo (st (apply hypot9 StreakEffect (st w) w)) = slowmo (st w)
  /\ magnet (st (apply hypot9 StreakEffect (st w) w)) = magnet (st w)
  /\ x2 (st (apply hypot9 StreakEffect (st w) w)) = x2 (st w)
  /\ badges (st (apply hypot9 StreakEffect (st w) w)) = badges (st w)
  /\ orbsRef (refs (apply hypot9 StreakEffect (st w) w)) = orbsRef (refs w).
Proof.
  intro w.
  apply (paused_is_frozen hypot9 StreakEffect w); reflexivity.
Defined.
